(** * validate-feed: a shallow embedding of [src/scripts/validate-feed.ts]

    The validator reads a parsed feed tree, applies field checkers to the
    document envelope, the channel and every item, records each violation
    through [handleError] and ends with an exit code.

    Modelling conventions.
    - A JavaScript value of the parsed tree is a [Value].  Number leaves are
      integral ([VNum n] is the number of the integer [n], a double);
      strings are sequences of code units below 256.
    - A tree has no sharing: two object (or array) nodes reached from
      different places are different references, so reference equality
      between them is [false].
    - Thrown exceptions are explicit: a computation returns an [outcome].
    - The module-level variables [exitCode], the console and the network are
      threaded through a state-and-exception monad [M].
    - Libraries whose sources are not part of the repository (the date
      parser, the e-mail validator, the HTTP client, the language list and
      the category table) are fields of the [Runtime] record, and so is the
      one choice of the build that the behaviour depends on: whether the
      compiler emitted the loop over the items as an iteration or as an
      index loop. *)

From Stdlib Require Import ZArith List Bool Ascii String Lia.
From Stdlib Require Import Numbers.DecimalString.
Import ListNotations.

Open Scope string_scope.
Open Scope Z_scope.

(** ** JavaScript values *)

#[warnings="-register-all"]
Inductive Value : Type :=
| VUndefined
| VNull
| VBool (b : bool)
| VNum (n : Z)
| VStr (s : string)
| VFunction (name : string)
| VObj (props : list (string * Value))
| VArr (elems : list Value).

(** [typeof v] *)
Definition typeof (v : Value) : string :=
  match v with
  | VUndefined => "undefined"
  | VNull => "object"
  | VBool _ => "boolean"
  | VNum _ => "number"
  | VStr _ => "string"
  | VFunction _ => "function"
  | VObj _ => "object"
  | VArr _ => "object"
  end.

(** [!!v] *)
Definition truthy (v : Value) : bool :=
  match v with
  | VUndefined | VNull => false
  | VBool b => b
  | VNum n => negb (n =? 0)
  | VStr s => negb (s =? "")%string
  | VFunction _ | VObj _ | VArr _ => true
  end.

Definition isArray (v : Value) : bool :=
  match v with VArr _ => true | _ => false end.

Definition isObject (v : Value) : bool :=
  match v with VObj _ | VArr _ | VFunction _ => true | _ => false end.

(** The decimal digits of an integer. *)
Definition Z_to_string (n : Z) : string :=
  NilZero.string_of_int (Z.to_int n).

(** The double nearest to a positive integer, ties going to the even
    significand of 53 bits. *)
Definition roundToDouble (c : Z) : Z :=
  let bits := Z.log2 c + 1 in
  if bits <=? 53 then c
  else
    let e := bits - 53 in
    let q := Z.shiftr c e in
    let r := c - Z.shiftl q e in
    let half := Z.shiftl 1 (e - 1) in
    if (half <? r) || ((r =? half) && Z.odd q)
    then Z.shiftl (q + 1) e
    else Z.shiftl q e.

(** Among the multiples of [10^p] that round to [x], the one nearest to
    [x], and the even one of two at the same distance. *)
Definition nearestMultiple (x p : Z) : option Z :=
  let unit := 10 ^ p in
  let lo := (x / unit) * unit in
  let hi := lo + unit in
  match roundToDouble lo =? x, roundToDouble hi =? x with
  | true, true =>
      if x - lo <? hi - x then Some lo
      else if hi - x <? x - lo then Some hi
      else if Z.even (x / unit) then Some lo else Some hi
  | true, false => Some lo
  | false, true => Some hi
  | false, false => None
  end.

(** The decimal with the fewest significant digits that rounds to [x]: the
    powers of ten are tried from [10^p] down. *)
Fixpoint shortestFrom (x : Z) (p : nat) : Z :=
  match nearestMultiple x (Z.of_nat p) with
  | Some c => c
  | None => match p with O => x | S p' => shortestFrom x p' end
  end.

Definition shortestDecimal (x : Z) : Z :=
  shortestFrom x (String.length (Z_to_string x)).

Fixpoint stripZeros (digits : list ascii) : list ascii :=
  match digits with
  | [] => []
  | d :: rest =>
      match stripZeros rest with
      | [] => if Ascii.eqb d "0" then [] else [d]
      | rest' => d :: rest'
      end
  end.

(** The digits of a positive integer as [Number.prototype.toString] lays
    them out: in full up to 21 digits, with an exponent beyond. *)
Definition layout (c : Z) : string :=
  let digits := Z_to_string c in
  if (String.length digits <=? 21)%nat then digits
  else
    let exponent := "e+" ++ Z_to_string (Z.of_nat (String.length digits) - 1) in
    match stripZeros (list_ascii_of_string digits) with
    | [] => digits
    | [d] => String d exponent
    | d :: more => String d ("." ++ string_of_list_ascii more ++ exponent)
    end.

(** [String(n)] for an integral number: the digits of the integer as far as
    every integer is a double (up to [2^53]), and beyond that the shortest
    decimal that reads back as the same double. *)
Definition numberToString (n : Z) : string :=
  if Z.abs n <=? 2 ^ 53 then Z_to_string n
  else if n <? 0 then "-" ++ layout (shortestDecimal (- n))
  else layout (shortestDecimal n).

(** [String(v)], the conversion a template literal applies. *)
Fixpoint toString (v : Value) : string :=
  match v with
  | VUndefined => "undefined"
  | VNull => "null"
  | VBool true => "true"
  | VBool false => "false"
  | VNum n => numberToString n
  | VStr s => s
  | VFunction name => "function " ++ name ++ "() { [native code] }"
  | VObj _ => "[object Object]"
  | VArr elems =>
      (fix join (l : list Value) : string :=
         match l with
         | [] => ""
         | x :: rest =>
             let sx := match x with
                       | VUndefined | VNull => ""
                       | _ => toString x
                       end in
             match rest with
             | [] => sx
             | _ :: _ => sx ++ "," ++ join rest
             end
         end) elems
  end.

(** ** Strings *)

Definition ascii_code (c : ascii) : Z := Z.of_nat (nat_of_ascii c).

(** White space and line terminators among the code units below 256. *)
Definition isWhiteSpace (c : ascii) : bool :=
  let n := ascii_code c in
  ((9 <=? n) && (n <=? 13)) || (n =? 32) || (n =? 160).

Definition isDigit (c : ascii) : bool :=
  let n := ascii_code c in (48 <=? n) && (n <=? 57).

Definition digitValue (c : ascii) : Z := ascii_code c - 48.

Definition isLower (c : ascii) : bool :=
  let n := ascii_code c in (97 <=? n) && (n <=? 122).

Definition isLetter (c : ascii) : bool :=
  let n := ascii_code c in
  isLower c || ((65 <=? n) && (n <=? 90)).

Definition strlen (s : string) : Z := Z.of_nat (String.length s).

(** [s.slice(b, e)] *)
Definition slice (s : string) (b e : Z) : string :=
  let len := strlen s in
  let from := if b <? 0 then Z.max (len + b) 0 else Z.min b len in
  let to := if e <? 0 then Z.max (len + e) 0 else Z.min e len in
  substring (Z.to_nat from) (Z.to_nat (Z.max (to - from) 0)) s.

(** [s.indexOf(pat)] *)
Definition str_indexOf (s pat : string) : Z :=
  match index 0 pat s with
  | Some n => Z.of_nat n
  | None => -1
  end.

(** [s.startsWith(p)] *)
Definition startsWith (s p : string) : bool := prefix p s.

Fixpoint endsWithChar (c : ascii) (s : string) : bool :=
  match s with
  | EmptyString => false
  | String a EmptyString => Ascii.eqb a c
  | String _ rest => endsWithChar c rest
  end.

(** [s] ends with [suf] (the regular expression [suf$] for a literal). *)
Definition endsWith (s suf : string) : bool :=
  let n := String.length s in
  let m := String.length suf in
  (m <=? n)%nat && (substring (n - m) m s =? suf)%string.

Fixpoint skipWhiteSpace (s : string) : string :=
  match s with
  | String c rest => if isWhiteSpace c then skipWhiteSpace rest else s
  | EmptyString => EmptyString
  end.

(** Longest prefix of decimal digits, as its value, and what follows;
    [None] when there is no digit. *)
Fixpoint digitsFrom (acc : option Z) (s : string) : option Z * string :=
  match s with
  | String c rest =>
      if isDigit c
      then digitsFrom (Some (10 * match acc with Some a => a | None => 0 end
                             + digitValue c)) rest
      else (acc, s)
  | EmptyString => (acc, s)
  end.

Definition splitSign (s : string) : Z * string :=
  match s with
  | String c rest =>
      if Ascii.eqb c "-" then (-1, rest)
      else if Ascii.eqb c "+" then (1, rest)
      else (1, s)
  | EmptyString => (1, s)
  end.

(** [parseInt(s, 10)]; [None] is NaN. *)
Definition parseInt (s : string) : option Z :=
  let (sign, body) := splitSign (skipWhiteSpace s) in
  match fst (digitsFrom None body) with
  | Some n => Some (sign * n)
  | None => None
  end.

Fixpoint allb (p : ascii -> bool) (s : string) : bool :=
  match s with
  | EmptyString => true
  | String c rest => p c && allb p rest
  end.

(** [Number(s)] on the decimal fragment of the numeric-string grammar:
    optional white space, an optional sign, digits with an optional
    fraction, optional white space.  [None] stands for NaN and for every
    value that is not an integer; both are different from every model
    number.  Exponents, radix prefixes and [Infinity] are outside the
    fragment. *)
Definition fractionFrom (s : string) : option (option Z * string) :=
  match s with
  | String c rest =>
      if Ascii.eqb c "." then Some (digitsFrom None rest) else None
  | EmptyString => None
  end.

Definition stringToNumber (s : string) : option Z :=
  let t := skipWhiteSpace s in
  match t with
  | EmptyString => Some 0
  | String _ _ =>
      let (sign, body) := splitSign t in
      let (ip, r1) := digitsFrom None body in
      match fractionFrom r1 with
      | Some (fp, r3) =>
          if allb isWhiteSpace r3 then
            match ip, fp with
            | None, None => None
            | _, Some (Zpos _) => None
            | Some n, _ => Some (sign * n)
            | None, Some _ => Some 0
            end
          else None
      | None =>
          if allb isWhiteSpace r1 then
            match ip with
            | Some n => Some (sign * n)
            | None => None
            end
          else None
      end
  end.

(** ** Equality *)

(** [a === b], also the SameValueZero comparison of [Set] (the model has no
    NaN).  Object and array nodes of a tree are distinct references. *)
Definition strictEq (a b : Value) : bool :=
  match a, b with
  | VUndefined, VUndefined => true
  | VNull, VNull => true
  | VBool x, VBool y => Bool.eqb x y
  | VNum x, VNum y => x =? y
  | VStr x, VStr y => (x =? y)%string
  | VFunction x, VFunction y => (x =? y)%string
  | _, _ => false
  end.

Definition toNumber (v : Value) : option Z :=
  match v with
  | VBool true => Some 1
  | VBool false => Some 0
  | VNum n => Some n
  | VStr s => stringToNumber s
  | VNull => Some 0
  | _ => None
  end.

Definition toPrimitive (v : Value) : Value :=
  if isObject v then VStr (toString v) else v.

Definition isNullish (v : Value) : bool :=
  match v with VUndefined | VNull => true | _ => false end.

(** [a == b] on primitives. *)
Definition looseEqPrim (a b : Value) : bool :=
  if isNullish a || isNullish b then isNullish a && isNullish b
  else
    match a, b with
    | VStr x, VStr y => (x =? y)%string
    | _, _ =>
        match toNumber a, toNumber b with
        | Some x, Some y => x =? y
        | _, _ => false
        end
    end.

(** [a == b] *)
Definition looseEq (a b : Value) : bool :=
  match isObject a, isObject b with
  | true, true => strictEq a b
  | true, false => negb (isNullish b) && looseEqPrim (toPrimitive a) b
  | false, true => negb (isNullish a) && looseEqPrim a (toPrimitive b)
  | false, false => looseEqPrim a b
  end.

(** ** Property access and lodash [get] *)

Fixpoint lookup (k : string) (props : list (string * Value)) : option Value :=
  match props with
  | [] => None
  | (k', v) :: rest => if (k' =? k)%string then Some v else lookup k rest
  end.

(** [object[key]] for a value that is neither [null] nor [undefined].  Own
    properties, and the one inherited member that the validator's fixed
    paths can reach on a primitive: [String.prototype.link].  The paths
    never address an index. *)
Definition member (object : Value) (key : string) : Value :=
  match object with
  | VObj props =>
      match lookup key props with Some v => v | None => VUndefined end
  | VStr s =>
      if (key =? "length")%string then VNum (strlen s)
      else if (key =? "link")%string then VFunction "link"
      else VUndefined
  | VArr elems =>
      if (key =? "length")%string then VNum (Z.of_nat (List.length elems))
      else VUndefined
  | _ => VUndefined
  end.

(** [key in Object(object)] for a key that contains a dot. *)
Definition hasProperty (object : Value) (key : string) : bool :=
  match object with
  | VObj props => match lookup key props with Some _ => true | None => false end
  | _ => false
  end.

Fixpoint containsDot (s : string) : bool :=
  match s with
  | EmptyString => false
  | String c rest => Ascii.eqb c "." || containsDot rest
  end.

(** lodash [stringToPath] on a path without brackets: split at the dots. *)
Fixpoint stringToPath (s : string) : list string :=
  match s with
  | EmptyString => [EmptyString]
  | String c rest =>
      if Ascii.eqb c "." then EmptyString :: stringToPath rest
      else match stringToPath rest with
           | seg :: segs => String c seg :: segs
           | [] => [String c EmptyString]
           end
  end.

(** lodash [castPath]: a path without a dot, or one that names a property
    of the object as it stands, is a single key. *)
Definition castPath (path : string) (object : Value) : list string :=
  if negb (containsDot path) || hasProperty object path then [path]
  else stringToPath path.

Fixpoint baseGet (object : Value) (path : list string) : Value :=
  match path with
  | [] => object
  | key :: rest =>
      if isNullish object then VUndefined
      else baseGet (member object key) rest
  end.

(** [_.get(object, path, defaultValue)] *)
Definition get (object : Value) (path : string) (defaultValue : Value) : Value :=
  let result := if isNullish object then VUndefined
                else baseGet object (castPath path object) in
  match result with
  | VUndefined => defaultValue
  | _ => result
  end.

Definition indexKeys (n : nat) : list string :=
  map (fun i => Z_to_string (Z.of_nat i)) (seq 0 n).

(** [Object.keys(v)] for a value that is neither [null] nor [undefined]. *)
Definition ownKeys (v : Value) : list string :=
  match v with
  | VObj props => map fst props
  | VStr s => indexKeys (String.length s)
  | VArr elems => indexKeys (List.length elems)
  | _ => []
  end.

(** [array.indexOf(x)] *)
Fixpoint indexOfFrom (i : Z) (l : list Value) (x : Value) : Z :=
  match l with
  | [] => -1
  | y :: rest => if strictEq y x then i else indexOfFrom (i + 1) rest x
  end.

Definition arr_indexOf (l : list Value) (x : Value) : Z := indexOfFrom 0 l x.

(** [_.without(array, ...values)] on strings. *)
Definition without (array values : list string) : list string :=
  filter (fun k => negb (existsb (String.eqb k) values)) array.

(** [array.join(sep)] on strings. *)
Fixpoint join (sep : string) (l : list string) : string :=
  match l with
  | [] => ""
  | [x] => x
  | x :: rest => x ++ sep ++ join sep rest
  end.

(** ** Exceptions *)

Inductive ErrorName : Type := AssertionError | TypeError | PlainError.

(** An error object: its class, its message, and the [status] property that
    the HTTP client sets on a rejection ([undefined] on every other
    error). *)
Record Error : Type := mkError {
  err_name : ErrorName;
  err_message : string;
  err_status : Value
}.

Inductive outcome (A : Type) : Type :=
| Ok (a : A)
| Throw (e : Error).

Arguments Ok {A} a.
Arguments Throw {A} e.

Definition isOk {A : Type} (o : outcome A) : bool :=
  match o with Ok _ => true | Throw _ => false end.

Definition andThen {A B : Type} (a : outcome A) (k : A -> outcome B) : outcome B :=
  match a with
  | Ok x => k x
  | Throw e => Throw e
  end.

Declare Scope outcome_scope.
Delimit Scope outcome_scope with outcome.
Notation "a >> b" := (andThen a (fun _ => b))
  (at level 62, right associativity) : outcome_scope.
Open Scope outcome_scope.

Definition assertionError (msg : string) : Error :=
  mkError AssertionError msg VUndefined.

Definition typeError (msg : string) : Error :=
  mkError TypeError msg VUndefined.

(** [new Error(msg)] *)
Definition newError (msg : string) : Error :=
  mkError PlainError msg VUndefined.

(** The message the assertion library writes when the caller gives none. *)
Definition generatedMessage (actual expected : Value) : string :=
  toString actual ++ " != " ++ toString expected.

(** [assert.equal(actual, expected, message)]: loose equality. *)
Definition assert_equal (actual expected : Value) (message : string) : outcome unit :=
  if looseEq actual expected then Ok tt else Throw (assertionError message).

(** [assert.notEqual(actual, expected, message)]; the message is optional. *)
Definition assert_notEqual (actual expected : Value) (message : option string)
  : outcome unit :=
  if looseEq actual expected
  then Throw (assertionError
                (match message with
                 | Some m => m
                 | None => generatedMessage actual expected
                 end))
  else Ok tt.

(** [assert.ok(value, message)] *)
Definition assert_ok (value : Value) (message : string) : outcome unit :=
  if truthy value then Ok tt else Throw (assertionError message).

(** [assert.match(s, re, message)], given whether [re] matches [s]. *)
Definition assert_match (matches : bool) (message : string) : outcome unit :=
  if matches then Ok tt else Throw (assertionError message).

(** [assert.doesNotMatch(s, re, message)] *)
Definition assert_doesNotMatch (matches : bool) (message : string) : outcome unit :=
  if matches then Throw (assertionError message) else Ok tt.

(** [object[key]] as an expression: reading a property of [null] or
    [undefined] throws. *)
Definition readMember (object : Value) (key : string) : outcome Value :=
  if isNullish object
  then Throw (typeError ("Cannot read property '" ++ key ++ "' of "
                         ++ toString object))
  else Ok (member object key).

(** [Object.keys(v)] as an expression. *)
Definition objectKeys (v : Value) : outcome (list string) :=
  if isNullish v
  then Throw (typeError "Cannot convert undefined or null to object")
  else Ok (ownKeys v).

(** The string behind a value that has passed a [typeof s === 'string']
    assertion. *)
Definition str_of (s : Value) : string :=
  match s with VStr x => x | _ => toString s end.

(** ** Regular expressions of the checkers *)

(** [/^ /gi] *)
Definition re_leading_space (s : string) : bool :=
  match s with String c _ => Ascii.eqb c " " | EmptyString => false end.

(** [/ $/gi] *)
Definition re_trailing_space (s : string) : bool := endsWithChar " " s.

(** [/^[a-z]{2}(|-[a-zA-Z]{2})$/g] *)
Definition re_language (s : string) : bool :=
  match s with
  | String a (String b EmptyString) => isLower a && isLower b
  | String a (String b (String h (String c (String d EmptyString)))) =>
      isLower a && isLower b && Ascii.eqb h "-" && isLetter c && isLetter d
  | _ => false
  end.

(** The syntax characters of a regular expression; every other character
    of a pattern stands for itself. *)
Definition isSyntaxCharacter (c : ascii) : bool :=
  existsb (Ascii.eqb c) (list_ascii_of_string "^$\.*+?()[]{}|").

(** The extensions hold no syntax character, as the lists of the validator
    ([jpg], [jpeg], [png]; [mp3], [m4a]) do not. *)
Definition literalExtensions (exts : list string) : bool :=
  forallb (allb (fun c => negb (isSyntaxCharacter c))) exts.

(** [new RegExp(`(${exts.join('|')})$`).test(s)] for literal extensions: an
    alternation of literals anchored at the end, so the string ends with one
    of them.  A list with a syntax character is another pattern, which this
    definition does not describe. *)
Definition re_extensions (exts : list string) (s : string) : bool :=
  existsb (endsWith s) exts.

(** ** Field checkers that need nothing but their arguments *)

Definition num_of (v : Value) : Z :=
  match v with VNum n => n | _ => 0 end.

Definition isNaN (n : option Z) : bool :=
  match n with Some _ => false | None => true end.

(** [n >= 0] for a number that may be NaN. *)
Definition geZero (n : option Z) : bool :=
  match n with Some z => z >=? 0 | None => false end.

Definition checkDefaultString (s : Value) (fieldName : string) : outcome unit :=
  assert_equal (VStr (typeof s)) (VStr "string")
    (fieldName ++ " must be a string.") >>
  assert_doesNotMatch (re_leading_space (str_of s))
    (fieldName ++ " must not start with leading space.") >>
  assert_doesNotMatch (re_trailing_space (str_of s))
    (fieldName ++ " must not start with trailing space.") >>
  assert_equal (VBool (strlen (str_of s) >? 0)) (VBool true)
    (fieldName ++ " is an empty string.") >>
  assert_notEqual (VBool (strlen (str_of s) >? 255))
    (VStr (fieldName ++ " must not have more than 255 characters.")) None.

Definition checkNatural (s : Value) (fieldName : string) : outcome unit :=
  assert_equal (VStr (typeof s)) (VStr "number")
    (fieldName ++ " must be a number.") >>
  assert_equal (VBool (num_of s >? 0)) (VBool true)
    (fieldName ++ " must be a positive number.").

Definition checkNumberString (s : Value) (fieldName : string) : outcome unit :=
  assert_equal (VStr (typeof s)) (VStr "string")
    (fieldName ++ " must be a string.") >>
  assert_equal (VBool (isNaN (parseInt (str_of s)))) (VBool false)
    (fieldName ++ " is not a valid number string.") >>
  assert_equal (VBool (geZero (parseInt (str_of s)))) (VBool true)
    (fieldName ++ " must be a positive number or zero.").

Definition checkDescriptionString (s : Value) (fieldName : string) : outcome unit :=
  assert_equal (VStr (typeof s)) (VStr "string")
    (fieldName ++ " must be a string.") >>
  assert_doesNotMatch (re_leading_space (str_of s))
    (fieldName ++ " must not start with leading space.") >>
  assert_doesNotMatch (re_trailing_space (str_of s))
    (fieldName ++ " must not start with trailing space.") >>
  assert_equal (VBool (strlen (str_of s) >? 0)) (VBool true)
    (fieldName ++ " is an empty string.") >>
  assert_notEqual (VBool (strlen (str_of s) >? 4000))
    (VStr (fieldName ++ " must not have more than 255 characters.")) None.

Definition checkCDATAString (s : Value) (fieldName : string) : outcome unit :=
  assert_equal (VStr (typeof s)) (VStr "string")
    (fieldName ++ " must be a string.") >>
  assert_equal (VBool (strlen (str_of s) >? 0)) (VBool true)
    (fieldName ++ " is an empty string.") >>
  assert_equal (VStr (slice (str_of s) 0 9)) (VStr "<![CDATA[")
    (fieldName ++ " must start with '<![CDATA[' if it's CDATA.") >>
  assert_equal (VStr (slice (str_of s) 9 (-3))) (VStr "]]>")
    (fieldName ++ " must end with ']]>' if it's CDATA.") >>
  assert_equal (VNum (str_indexOf (slice (str_of s) 9 (-3)) "]]>")) (VNum (-1))
    (fieldName ++ " must not include ']]>' in it's content.").

Definition checkUrlFormat (s : Value) (fieldName : string)
    (expectedExtensions : list string) : outcome unit :=
  assert_equal (VStr (typeof s)) (VStr "string")
    (fieldName ++ " must be a string.") >>
  assert_equal (VBool (strlen (str_of s) >? 0)) (VBool true)
    (fieldName ++ " is an empty string.") >>
  assert_equal (VStr (slice (str_of s) 0 8)) (VStr "https://")
    (fieldName ++ " must start with 'https://'.") >>
  if (Z.of_nat (List.length expectedExtensions) >? 0)
  then assert_match (re_extensions expectedExtensions (str_of s))
         (fieldName ++ " must end with one of the extensions "
          ++ join "," expectedExtensions ++ ".")
  else Ok tt.

Definition checkBool (s : Value) (fieldName : string) : outcome unit :=
  assert_equal (VStr (typeof s)) (VStr "boolean")
    (fieldName ++ " must be a boolean.").

Definition checkItunesType (s : Value) (fieldName : string) : outcome unit :=
  assert_notEqual (VNum (arr_indexOf [VStr "serial"; VStr "episodic"] s))
    (VNum (-1))
    (Some (fieldName ++ " must be 'serial' or 'episodic'")).

Definition checkEpisodeType (s : Value) (fieldName : string) : outcome unit :=
  assert_notEqual
    (VNum (arr_indexOf [VStr "full"; VStr "trailer"; VStr "bonus"] s))
    (VNum (-1))
    (Some (fieldName ++ " must be 'full', 'trailer' or 'bonus'.")).

Definition checkAudioType (s : Value) (fieldName : string) : outcome unit :=
  assert_notEqual
    (VNum (arr_indexOf [VStr "audio/x-m4a"; VStr "audio/mpeg"] s))
    (VNum (-1))
    (Some (fieldName ++ " valid audio type")).

(** ** The run-time environment *)

(** What a HEAD request resolves to: the status and the two headers the
    validator reads. *)
Record Response : Type := mkResponse {
  res_status : Value;
  res_accept_ranges : Value;
  res_content_type : Value
}.

Record Runtime : Type := mkRuntime {
  (** [args['strict']] *)
  args_strict : bool;
  (** [process.env.CI], [process.env.NODE_ENV], [process.env.PUBLIC_URL_BASE] *)
  env_CI : option string;
  env_NODE_ENV : option string;
  env_PUBLIC_URL_BASE : option string;
  (** [rq.head(url)]: the response it resolves to, or the [status] of the
      error it rejects with *)
  rq_head : string -> Response + Value;
  (** [moment(s, DATE_FORMATS, true).isValid()] *)
  moment_isValid : string -> bool;
  (** [EmailValidator.validate(s)] *)
  EmailValidator_validate : Value -> bool;
  (** the records of the language list *)
  iso6392 : list Value;
  (** [_.get(ITUNES_CATEGORIES, cat, undefined)] on the category table: an
      entry of the table, what a dotted path reaches inside one, or a member
      that the table object inherits (a function for [toString]) *)
  ITUNES_CATEGORIES_get : string -> Value;
  (** the compiler emitted ES2015 or later (a configured target, ts-node),
      so that [for...of] runs the iteration protocol; [tsc *.ts] as in the
      README emits for an older target, where such a loop is an index loop
      (the option that emulates the protocol there is off) *)
  emit_ES2015 : bool
}.

(** [process.env.X] as a value. *)
Definition envValue (x : option string) : Value :=
  match x with Some s => VStr s | None => VUndefined end.

Definition orDefault (v defaultValue : Value) : Value :=
  match v with VUndefined => defaultValue | _ => v end.

(** [x.indexOf(arg)] as a method call on an arbitrary value. *)
Definition call_indexOf (x arg : Value) : outcome Value :=
  match x with
  | VArr elems => Ok (VNum (arr_indexOf elems arg))
  | VStr s => Ok (VNum (str_indexOf s (toString arg)))
  | _ => Throw (typeError "_.get(...).indexOf is not a function")
  end.

(** ** State: console, exit code, network *)

Inductive Stream : Type := StdWarn | StdError.

Record State : Type := mkState {
  (** [console.warn] and [console.error] lines, oldest first *)
  console : list (Stream * string);
  (** the module variable [exitCode] *)
  exitCode : Z;
  (** the calls of [handleError], oldest first: the error and [isStrict] *)
  handled : list (Error * bool);
  (** the URLs of the HEAD requests sent, oldest first *)
  requests : list string
}.

Definition initialState : State := mkState [] 0 [] [].

Definition M (A : Type) : Type := State -> State * outcome A.

Definition ret {A : Type} (a : A) : M A := fun st => (st, Ok a).

Definition bind {A B : Type} (m : M A) (k : A -> M B) : M B :=
  fun st =>
    match m st with
    | (st', Ok a) => k a st'
    | (st', Throw e) => (st', Throw e)
    end.

Definition lift {A : Type} (o : outcome A) : M A := fun st => (st, o).

(** [try { body } catch (err) { handler(err) }] *)
Definition try_catch {A : Type} (body : M A) (handler : Error -> M A) : M A :=
  fun st =>
    match body st with
    | (st', Ok a) => (st', Ok a)
    | (st', Throw e) => handler e st'
    end.

Declare Scope M_scope.
Delimit Scope M_scope with M.
Notation "x <- m ;; k" := (bind m (fun x => k))
  (at level 61, m at next level, right associativity) : M_scope.
Notation "m ;; k" := (bind m (fun _ => k))
  (at level 61, right associativity) : M_scope.
Open Scope M_scope.

Definition console_warn (msg : string) : M unit :=
  fun st => (mkState (console st ++ [(StdWarn, msg)]) (exitCode st)
               (handled st) (requests st), Ok tt).

Definition console_error (msg : string) : M unit :=
  fun st => (mkState (console st ++ [(StdError, msg)]) (exitCode st)
               (handled st) (requests st), Ok tt).

Definition set_exitCode (code : Z) : M unit :=
  fun st => (mkState (console st) code (handled st) (requests st), Ok tt).

Definition record_handled (err : Error) (isStrict : bool) : M unit :=
  fun st => (mkState (console st) (exitCode st)
               (handled st ++ [(err, isStrict)]) (requests st), Ok tt).

Fixpoint forEach {A : Type} (l : list A) (body : A -> M unit) : M unit :=
  match l with
  | [] => ret tt
  | x :: rest => body x ;; forEach rest body
  end.

(** ** The validator proper *)

Section Validator.

Variable rt : Runtime.

Definition checkDate (s : Value) (fieldName : string) : outcome unit :=
  assert_equal (VStr (typeof s)) (VStr "string")
    (fieldName ++ " must be a string.") >>
  assert_equal (VBool (strlen (str_of s) >? 0)) (VBool true)
    (fieldName ++ " is an empty string.") >>
  assert_equal (VBool (moment_isValid rt (str_of s))) (VBool true)
    (fieldName ++ " is not properly formatted date.").

(** [iso6392.map(({ iso6391 }) => iso6391)] *)
Definition ISO_CODES : list Value :=
  map (fun entry => member entry "iso6391") (iso6392 rt).

Definition checkLanguage (s : Value) (fieldName : string) : outcome unit :=
  assert_equal (VStr (typeof s)) (VStr "string")
    (fieldName ++ " must be a string.") >>
  assert_equal (VBool (strlen (str_of s) >? 0)) (VBool true)
    (fieldName ++ " is an empty string.") >>
  assert_match (re_language (str_of s))
    (fieldName ++ " has not the proper format of a language code.") >>
  assert_notEqual (VNum (arr_indexOf ISO_CODES (VStr (slice (str_of s) 0 2))))
    (VNum (-1))
    (Some (fieldName ++ " does not start with a valid language code.")).

Definition checkItunesCategory (cat subcat : Value) : outcome unit :=
  assert_equal (VStr (typeof cat)) (VStr "string")
    "Itunes category must be a string." >>
  assert_ok (orDefault (ITUNES_CATEGORIES_get rt (str_of cat)) VNull)
    "Itunes category is not a valid itunes category." >>
  if truthy subcat then
    assert_equal (VStr (typeof subcat)) (VStr "string")
      "Itunes subcategory must be a string." >>
    andThen
      (call_indexOf (orDefault (ITUNES_CATEGORIES_get rt (str_of cat)) (VArr []))
         subcat)
      (fun idx =>
         assert_notEqual idx (VNum (-1)) (Some "Itunes subcategory is not valid."))
  else Ok tt.

Definition checkEmail (s : Value) (fieldName : string) : outcome unit :=
  assert_equal (VBool (EmailValidator_validate rt s)) (VBool true)
    (fieldName ++ " is not a valid email address.").

(** [await rq.head(s)]: the request is sent; a rejection is thrown. *)
Definition head_request (url : string) : M Response :=
  fun st =>
    let st' := mkState (console st) (exitCode st) (handled st)
                 (requests st ++ [url]) in
    match rq_head rt url with
    | inl res => (st', Ok res)
    | inr status => (st', Throw (mkError PlainError EmptyString status))
    end.

(** The guard of the pipeline special case. *)
Definition skipInPipeline (s : Value) : bool :=
  truthy (envValue (env_CI rt))
  && (strictEq (envValue (env_NODE_ENV rt)) (VStr "test")
      || startsWith (str_of s) (toString (envValue (env_PUBLIC_URL_BASE rt)))).

Definition checkUrlExists (s : Value) (fieldName : string)
    (expectedExtension expectedContentTypes : list string) : M unit :=
  lift (checkUrlFormat s fieldName expectedExtension) ;;
  if skipInPipeline s then
    console_warn ("Skipping checking of URL " ++ toString s ++ " in ci pipeline")
  else
    try_catch
      (res <- head_request (str_of s) ;;
       lift (assert_equal (res_status res) (VNum 200)
               (fieldName ++ " responded with " ++ toString (res_status res)
                ++ " when trying to connect.")) ;;
       lift (assert_equal (res_accept_ranges res) (VStr "bytes")
               (fieldName
                ++ " has not field 'accept-ranges' in header set to 'bytes'.")) ;;
       if (Z.of_nat (List.length expectedContentTypes) >? 0) then
         lift (assert_notEqual
                 (VNum (arr_indexOf (map VStr expectedContentTypes)
                          (res_content_type res)))
                 (VNum (-1))
                 (Some (fieldName ++ " has an unexpected content type "
                        ++ toString (res_content_type res) ++ ".")))
       else ret tt)
      (fun err =>
         lift (assert_equal (err_status err) (VNum 200)
                 (fieldName ++ " responded with " ++ toString (err_status err)
                  ++ " when trying to connect."))).

(** *** Recording violations *)

Definition handleError (err : Error) (isStrict : bool) : M unit :=
  record_handled err isStrict ;;
  if isStrict && negb (args_strict rt) then
    console_warn (err_message err)
  else
    console_error (err_message err) ;;
    set_exitCode 1.

Definition Validator : Type := Value -> string -> M unit.

Definition pureValidator (c : Value -> string -> outcome unit) : Validator :=
  fun s f => lift (c s f).

Definition check (value : Value) (validate : Validator) (fieldName : string)
  : M unit :=
  try_catch (validate value fieldName) (fun err => handleError err false).

(** *** The document envelope *)

Definition REQUIRED_RSS_ATTRS : list (string * string) :=
  [ ("@_version", "2.0");
    ("@_xmlns:content", "http://purl.org/rss/1.0/modules/content/");
    ("@_xmlns:googleplay", "http://www.google.com/schemas/play-podcasts/1.0");
    ("@_xmlns:itunes", "http://www.itunes.com/dtds/podcast-1.0.dtd") ].

Definition checkRSSFormat (feed : Value) : M unit :=
  forEach REQUIRED_RSS_ATTRS
    (fun '(key, value) =>
       try_catch
         (lift (assert_equal (get feed ("rss." ++ key) (VStr EmptyString))
                  (VStr value)
                  ("RSS property " ++ key ++ " should be set to " ++ value)))
         (fun err => handleError err false)).

(** *** The channel *)

Definition imageValidator : Validator :=
  fun s f => checkUrlExists s f ["jpg"; "jpeg"; "png"]
               ["image/jpg"; "image/jpeg"; "image/png"].

Definition urlExistsValidator : Validator :=
  fun s f => checkUrlExists s f [] [].

Definition REQUIRED_CHANNEL_ATTRS : list (string * Validator) :=
  [ ("title", pureValidator checkDefaultString);
    ("description", pureValidator checkDescriptionString);
    ("itunes:image.@_href", imageValidator);
    ("language", pureValidator checkLanguage);
    ("itunes:explicit", pureValidator checkBool);
    ("atom:link.@_href", urlExistsValidator) ].

Definition OPTIONAL_CHANNEL_ATTRS : list (string * Validator) :=
  [ ("content:encoded", pureValidator checkCDATAString);
    ("itunes:summary", pureValidator checkDescriptionString);
    ("itunes:author", pureValidator checkDefaultString);
    ("link", urlExistsValidator);
    ("itunes:owner.itunes:name", pureValidator checkDefaultString);
    ("itunes:owner.itunes:email", pureValidator checkEmail);
    ("lastBuildDate", pureValidator checkDate);
    ("itunes:title", pureValidator checkDefaultString);
    ("itunes:type", pureValidator checkItunesType);
    ("copyright", pureValidator checkDefaultString);
    ("itunes:new-feed-url", urlExistsValidator);
    ("itunes:block", pureValidator checkDefaultString);
    ("itunes:complete", pureValidator checkDefaultString) ].

Definition CHANNEL_STRUCTURAL_TAGS : list string :=
  ["itunes:image"; "image"; "itunes:category"; "itunes:owner"; "atom:link";
   "item"].

(** The body of the loop over the required rule table. *)
Definition checkRequiredField (node : Value) (fieldName : string -> outcome string)
    (entry : string * Validator) : M unit :=
  let '(field, validate) := entry in
  try_catch
    (f <- lift (fieldName field) ;;
     validate (get node field VNull) f)
    (fun err => handleError err false).

(** The body of the loop over the optional rule table. *)
Definition checkOptionalField (node : Value) (entry : string * Validator)
  : M unit :=
  let '(field, validate) := entry in
  if strictEq (get node field VUndefined) VUndefined then ret tt
  else
    try_catch (validate (get node field VNull) field)
      (fun err => handleError err false).

Definition checkChannel (channel : Value) : M unit :=
  forEach REQUIRED_CHANNEL_ATTRS
    (checkRequiredField channel (fun field => Ok field)) ;;
  try_catch
    (let category := get channel "itunes:category.@_text" (VStr EmptyString) in
     let subcategory :=
       get channel "itunes:category.itunes:category.@_text" VNull in
     lift (checkItunesCategory category subcategory))
    (fun err => handleError err false) ;;
  forEach OPTIONAL_CHANNEL_ATTRS (checkOptionalField channel) ;;
  keys <- lift (objectKeys channel) ;;
  let additionalChannelTags :=
    without keys
      (CHANNEL_STRUCTURAL_TAGS
       ++ map fst REQUIRED_CHANNEL_ATTRS
       ++ map fst OPTIONAL_CHANNEL_ATTRS) in
  if (Z.of_nat (List.length additionalChannelTags) >? 0) then
    handleError
      (newError ("Channel has additional tags: "
                 ++ join "," additionalChannelTags)) true
  else ret tt.

(** *** The items *)

Definition EPISODE_STRUCTURAL_TAGS : list string := ["enclosure"; "guid"].

Definition audioUrlValidator : Validator :=
  pureValidator (fun s f => checkUrlFormat s f ["mp3"; "m4a"]).

Definition urlFormatValidator : Validator :=
  pureValidator (fun s f => checkUrlFormat s f []).

Definition REQUIRED_EPISODE_ATTRS (itunesType : Value)
  : list (string * Validator) :=
  [ ("title", pureValidator checkDefaultString);
    ("enclosure.@_url", audioUrlValidator);
    ("enclosure.@_length", pureValidator checkNumberString);
    ("enclosure.@_type", pureValidator checkAudioType) ]
  ++ (if strictEq itunesType (VStr "serial")
      then [("itunes:episode", pureValidator checkNatural)]
      else []).

Definition OPTIONAL_EPISODE_ATTRS (itunesType : Value)
  : list (string * Validator) :=
  [ ("itunes:title", pureValidator checkDefaultString);
    ("itunes:author", pureValidator checkDefaultString);
    ("itunes:summary", pureValidator checkDefaultString);
    ("itunes:subtitle", pureValidator checkDefaultString);
    ("itunes:episodeType", pureValidator checkEpisodeType);
    ("content:encoded", pureValidator checkCDATAString);
    ("category", pureValidator checkDefaultString);
    ("guid.#text", pureValidator checkDefaultString);
    ("guid.@_isPermaLink", pureValidator checkBool);
    ("pubDate", pureValidator checkDate);
    ("description", pureValidator checkDescriptionString);
    ("itunes:duration", pureValidator checkNatural);
    ("link", urlFormatValidator);
    ("itunes:image.@_href", imageValidator);
    ("itunes:explicit", pureValidator checkBool) ]
  ++ (if negb (strictEq itunesType (VStr "serial"))
      then [("itunes:episode", pureValidator checkNatural)]
      else [])
  ++ [ ("itunes:order", pureValidator checkNatural);
       ("itunes:season", pureValidator checkNatural) ].

(** [set.has(v)] and [set.add(v)] of a [Set], kept in insertion order. *)
Definition set_has (set : list Value) (v : Value) : bool :=
  existsb (fun x => strictEq x v) set.

Definition set_add (set : list Value) (v : Value) : list Value :=
  if set_has set v then set else set ++ [v].

(** [`${item['title']}: ${field}`] *)
Definition episodeFieldName (item : Value) (field : string) : outcome string :=
  andThen (readMember item "title")
    (fun title => Ok (toString title ++ ": " ++ field)).

(** [_.get(item, 'guid.#text', '')] and [_.get(item, 'itunes:episode', '')] *)
Definition guidOf (item : Value) : Value :=
  get item "guid.#text" (VStr EmptyString).

Definition episodeOf (item : Value) : Value :=
  get item "itunes:episode" (VStr EmptyString).

(** The [if (guid) { ... }] block of the loop over the items: the set of
    guids seen is passed along. *)
Definition checkDuplicateGuid (item : Value) (guids : list Value)
  : M (list Value) :=
  let guid := guidOf item in
  if truthy guid then
    (if set_has guids guid then
       title <- lift (readMember item "title") ;;
       handleError
         (newError (toString title ++ ": Duplicate guid " ++ toString guid))
         false
     else ret tt) ;;
    ret (set_add guids guid)
  else ret guids.

(** The [if (episode) { ... }] block. *)
Definition checkDuplicateEpisode (item : Value) (episodes : list Value)
  : M (list Value) :=
  let episode := episodeOf item in
  if truthy episode then
    (if set_has episodes episode then
       title <- lift (readMember item "title") ;;
       handleError
         (newError (toString title ++ ": Duplicate episode "
                    ++ toString episode))
         false
     else ret tt) ;;
    ret (set_add episodes episode)
  else ret episodes.

(** The tail of the loop body: the unexpected tags of one item. *)
Definition checkAdditionalTags (required optional : list (string * Validator))
    (item : Value) : M unit :=
  keys <- lift (objectKeys item) ;;
  let additionalTags :=
    without keys
      (EPISODE_STRUCTURAL_TAGS ++ map fst required ++ map fst optional) in
  if (Z.of_nat (List.length additionalTags) >? 0) then
    title <- lift (readMember item "title") ;;
    handleError
      (newError (toString title ++ ": Has additional tags: "
                 ++ join "," additionalTags))
      true
  else ret tt.

(** The body of the loop over the items. *)
Definition checkEpisode (required optional : list (string * Validator))
    (item : Value) (seen : list Value * list Value)
  : M (list Value * list Value) :=
  let '(guids, episodes) := seen in
  guids' <- checkDuplicateGuid item guids ;;
  episodes' <- checkDuplicateEpisode item episodes ;;
  forEach required (checkRequiredField item (episodeFieldName item)) ;;
  checkAdditionalTags required optional item ;;
  ret (guids', episodes').

Fixpoint episodesLoop (required optional : list (string * Validator))
    (items : list Value) (seen : list Value * list Value) : M unit :=
  match items with
  | [] => ret tt
  | item :: rest =>
      seen' <- checkEpisode required optional item seen ;;
      episodesLoop required optional rest seen'
  end.

Fixpoint chars (s : string) : list Value :=
  match s with
  | EmptyString => []
  | String c rest => VStr (String c EmptyString) :: chars rest
  end.

(** What [for (let item of items)] iterates over when the loop runs as it
    is written: the iteration protocol. *)
Definition iterate (items : Value) : outcome (list Value) :=
  match items with
  | VArr elems => Ok elems
  | VStr s => Ok (chars s)
  | _ => Throw (typeError "items is not iterable")
  end.

(** The same loop as the compiler emits it for a target below ES2015:
    [for (var _i = 0, items_1 = items; _i < items_1.length; _i++)] with
    [item = items_1[_i]].  A value without a [length] makes the comparison
    fail at once; [null] has no properties to read.  The loop receives an
    array or a falsy value, every other value having been wrapped into an
    array. *)
Definition indexLoop (items : Value) : outcome (list Value) :=
  match items with
  | VArr elems => Ok elems
  | VStr s => Ok (chars s)
  | _ =>
      andThen (readMember items "length") (fun len =>
      Ok (match toNumber (toPrimitive len) with
          | Some n =>
              map (fun i => member items (Z_to_string (Z.of_nat i)))
                (seq 0 (Z.to_nat n))
          | None => []
          end))
  end.

(** The loop over the items, by the target of the build. *)
Definition forOf (items : Value) : outcome (list Value) :=
  if emit_ES2015 rt then iterate items else indexLoop items.

(** The item list as the loop sees it: one item that is not an array is
    wrapped into an array. *)
Definition itemsOf (channel : Value) : Value :=
  let items := get channel "item" (VArr []) in
  if truthy items && negb (isArray items) then VArr [items] else items.

Definition checkEpisodes (channel : Value) : M unit :=
  let items := itemsOf channel in
  try_catch
    (len <- lift (readMember items "length") ;;
     lift (checkNatural len "Episode count"))
    (fun err => handleError err false) ;;
  let itunesType := get channel "itunes:type" (VStr EmptyString) in
  elems <- lift (forOf items) ;;
  episodesLoop (REQUIRED_EPISODE_ATTRS itunesType)
    (OPTIONAL_EPISODE_ATTRS itunesType) elems ([], []).

(** [process.exit(exitCode)]: the run ends with the exit code. *)
Definition process_exit : M Z := fun st => (st, Ok (exitCode st)).

(** [const channel = _.get(feed, 'rss.channel', {})] *)
Definition channelOf (feed : Value) : Value :=
  get feed "rss.channel" (VObj []).

Definition main (feed : Value) : M Z :=
  checkRSSFormat feed ;;
  checkChannel (channelOf feed) ;;
  checkEpisodes (channelOf feed) ;;
  process_exit.

End Validator.

(** The violations that count for the exit code. *)
Definition escalates (strict : bool) (v : Error * bool) : bool :=
  negb (snd v) || strict.

(** A run from the initial state: the final state and the exit code. *)
Definition run (rt : Runtime) (feed : Value) : State * outcome Z :=
  main rt feed initialState.

(** * create-feed: the feed object of [src/scripts/create-feed.ts]

    The generator reads a podcast record (the parsed JSON input, a [Value])
    and builds the object [feed] that it hands to the XML writer.  The
    embedding ends with that object; the clock is a parameter.  Of the
    property names that the generator reads, [link] is the one that a string
    inherits. *)

(** [a || b] *)
Definition orElse (a b : Value) : Value := if truthy a then a else b.

(** [a && b] *)
Definition andAlso (a b : Value) : Value := if truthy a then b else a.

(** [...(cond && { props })] in an object literal: a falsy value spreads to
    nothing. *)
Definition spreadIf (cond : Value) (props : list (string * Value))
  : list (string * Value) :=
  if truthy cond then props else [].

Fixpoint mapOutcome (f : Value -> outcome Value) (l : list Value)
  : outcome (list Value) :=
  match l with
  | [] => Ok []
  | x :: rest =>
      andThen (f x) (fun y =>
      andThen (mapOutcome f rest) (fun ys => Ok (y :: ys)))
  end.

(** [x.map(f)] as a method call on an arbitrary value. *)
Definition call_map (x : Value) (f : Value -> outcome Value)
  : outcome (list Value) :=
  match x with
  | VArr elems => mapOutcome f elems
  | VUndefined | VNull =>
      Throw (typeError ("Cannot read property 'map' of " ++ toString x))
  | _ => Throw (typeError "podcast.episodes.map is not a function")
  end.

(** The callback of [podcast.episodes.map]: the item of one episode. *)
Definition feedItem (podcast episode : Value) : outcome Value :=
  andThen (readMember episode "guid") (fun guid =>
  Ok (VObj
        ([ ("guid", VObj [("@_isPermaLink", VBool false); ("#text", guid)]);
           ("pubDate", member episode "pubDate");
           ("title", member episode "title");
           ("itunes:title", member episode "title");
           ("itunes:author", member podcast "author");
           ("description", member episode "description") ]
         ++ spreadIf (member episode "contentEncoded")
              [("content:encoded", member episode "contentEncoded")]
         ++ spreadIf (member episode "subtitle")
              [("itunes:subtitle", member episode "subtitle")]
         ++ [ ("enclosure",
               VObj [ ("@_url", member episode "audioUrl");
                      ("@_length", member episode "audioSize");
                      ("@_type", member episode "audioType") ]);
              ("itunes:duration", orElse (member episode "duration") (VNum 0));
              ("itunes:explicit", VBool false);
              ("itunes:episodeType", VStr "full") ]
         ++ spreadIf (member episode "categories")
              [("category", member episode "categories")]
         ++ spreadIf (member episode "link") [("link", member episode "link")]
         ++ spreadIf (member episode "episode")
              [("itunes:episode", member episode "episode")]
         ++ spreadIf
              (andAlso
                 (andAlso (member podcast "type")
                    (VBool (strictEq (member podcast "type") (VStr "serial"))))
                 (member episode "episode"))
              [("itunes:order", member episode "episode")]
         ++ spreadIf (member episode "season")
              [("itunes:season", member episode "season")]))).

(** The children of [channel], given the items. *)
Definition feedChannel (podcast : Value) (now : string) (items : list Value)
  : Value :=
  VObj
    ([ ("title", member podcast "title");
       ("description", member podcast "description");
       ("itunes:image", VObj [("@_href", member podcast "imageUrl")]);
       ("image",
        VObj [ ("url", member podcast "imageUrl");
               ("title", member podcast "title");
               ("link", member podcast "link") ]);
       ("language", orElse (member podcast "language") (VStr "en-us"));
       ("itunes:category",
        VObj [ ("@_text", member podcast "category");
               ("itunes:category",
                VObj [("@_text", member podcast "subcategory")]) ]);
       ("itunes:explicit", VBool false);
       ("itunes:author", member podcast "author");
       ("link", member podcast "link");
       ("itunes:owner",
        VObj [ ("itunes:name", member podcast "ownerName");
               ("itunes:email", member podcast "ownerEmail") ]) ]
     ++ spreadIf (member podcast "atomLink")
          [("atom:link",
            VObj [ ("@_rel", VStr "self");
                   ("@_type", VStr "application/rss+xml");
                   ("@_href", member podcast "atomLink") ])]
     ++ spreadIf (member podcast "type") [("itunes:type", member podcast "type")]
     ++ [ ("lastBuildDate", VStr now);
          ("item", VArr items) ]).

(** [const feed = { rss: { ... } }], with [now] for
    [moment.utc().format('ddd, DD MMM YYYY HH:mm:ss ZZ')]. *)
Definition createFeed (podcast : Value) (now : string) : outcome Value :=
  andThen (readMember podcast "title") (fun _ =>
  andThen (call_map (member podcast "episodes") (feedItem podcast))
    (fun items =>
  Ok (VObj
        [("rss",
          VObj [ ("@_version", VStr "2.0");
                 ("@_xmlns:content",
                  VStr "http://purl.org/rss/1.0/modules/content/");
                 ("@_xmlns:atom", VStr "http://www.w3.org/2005/Atom");
                 ("@_xmlns:itunes",
                  VStr "http://www.itunes.com/dtds/podcast-1.0.dtd");
                 ("@_xmlns:googleplay",
                  VStr "http://www.google.com/schemas/play-podcasts/1.0");
                 ("channel", feedChannel podcast now items) ])]))).

(** ** Auxiliary definitions of the statements *)

(** The characters a decimal numeric string is made of. *)
Definition isNumericChar (c : ascii) : bool :=
  isWhiteSpace c || isDigit c || Ascii.eqb c "." || Ascii.eqb c "+"
  || Ascii.eqb c "-".

(** [c.repeat(n)] *)
Fixpoint repeatChar (n : nat) (c : ascii) : string :=
  match n with
  | O => EmptyString
  | S m => String c (repeatChar m c)
  end.

(** The shape rules of the two string checkers, the length bound apart: no
    leading space, no trailing space, not empty. *)
Definition stringShapeOk (s : string) : bool :=
  negb (re_leading_space s) && negb (re_trailing_space s) && (strlen s >? 0).

(** The state after [handleError(err, isStrict)]. *)
Definition recordViolation (rt : Runtime) (err : Error) (isStrict : bool)
    (st : State) : State :=
  if isStrict && negb (args_strict rt) then
    mkState (console st ++ [(StdWarn, err_message err)]) (exitCode st)
      (handled st ++ [(err, isStrict)]) (requests st)
  else
    mkState (console st ++ [(StdError, err_message err)]) 1
      (handled st ++ [(err, isStrict)]) (requests st).

(** A computation keeps a property of the state. *)
Definition preserves {A : Type} (I : State -> Prop) (m : M A) : Prop :=
  forall st, I st -> I (fst (m st)).

(** A computation can throw [e]. *)
Definition throwable {A : Type} (m : M A) (e : Error) : Prop :=
  exists st, snd (m st) = Throw e.

(** The exit code says whether a violation that counts has been recorded. *)
Definition exitConsistent (strict : bool) (st : State) : Prop :=
  exitCode st = if existsb (escalates strict) (handled st) then 1 else 0.


(** No item of the list is [null] or [undefined]. *)
Definition noNullish (items : list Value) : Prop :=
  Forall (fun item => isNullish item = false) items.

(** The errors of the two duplicate blocks. *)
Definition duplicateGuidError (item : Value) : Error :=
  newError (toString (member item "title") ++ ": Duplicate guid "
            ++ toString (guidOf item)).

Definition duplicateEpisodeError (item : Value) : Error :=
  newError (toString (member item "title") ++ ": Duplicate episode "
            ++ toString (episodeOf item)).

(** *** A concrete run *)

(** The methods that every object inherits from [Object.prototype]. *)
Definition OBJECT_PROTOTYPE_METHODS : list string :=
  ["hasOwnProperty"; "isPrototypeOf"; "propertyIsEnumerable";
   "toLocaleString"; "toString"; "valueOf"; "__defineGetter__";
   "__defineSetter__"; "__lookupGetter__"; "__lookupSetter__"].

(** [_.get(table, name, undefined)] for a table that is an object with the
    entries given, at a name that lodash takes as one key (a name without
    dot and bracket): the entry of that name, else the member of that name
    which the table inherits (the constructor [Object], a method, or the
    prototype itself). *)
Definition tableGet (entries : list (string * Value)) (name : string)
  : Value :=
  match lookup name entries with
  | Some v => v
  | None =>
      if (name =? "constructor")%string then VFunction "Object"
      else if existsb (String.eqb name) OBJECT_PROTOTYPE_METHODS
      then VFunction name
      else if (name =? "__proto__")%string then VObj []
      else VUndefined
  end.

(** A run-time environment in which every URL answers a HEAD request with
    status 200, byte ranges and a JPEG content type, every date and e-mail
    address is taken as valid, the reference data know the language [en],
    the category table is [{ "Arts": ["Books"] }], and the build is that of
    the README. *)
Definition exampleRuntime (strict : bool) (ci nodeEnv base : option string)
  : Runtime :=
  mkRuntime strict ci nodeEnv base
    (fun _ => inl (mkResponse (VNum 200) (VStr "bytes") (VStr "image/jpeg")))
    (fun _ => true)
    (fun _ => true)
    [VObj [("iso6391", VStr "en")]]
    (tableGet [("Arts", VArr [VStr "Books"])])
    false.

(** The same environment when the compiler emitted ES2015 or later. *)
Definition emittedForES2015 (rt : Runtime) : Runtime :=
  mkRuntime (args_strict rt) (env_CI rt) (env_NODE_ENV rt)
    (env_PUBLIC_URL_BASE rt) (rq_head rt) (moment_isValid rt)
    (EmailValidator_validate rt) (iso6392 rt) (ITUNES_CATEGORIES_get rt) true.

(** An item with the required tags and what else is given. *)
Definition requiredItem (title : string) (more : list (string * Value))
  : Value :=
  VObj ([ ("title", VStr title);
          ("enclosure",
           VObj [ ("@_url", VStr "https://cdn.example/audio/ep.mp3");
                  ("@_length", VStr "1024");
                  ("@_type", VStr "audio/mpeg") ]) ]
        ++ more).

(** An item with the required tags, a guid, and what else is given. *)
Definition exampleItem (title : string) (guid : Value)
    (more : list (string * Value)) : Value :=
  requiredItem title
    (("guid", VObj [("#text", guid); ("@_isPermaLink", VStr "false")]) :: more).

(** A channel with the required tags, what else is given, and the items. *)
Definition exampleChannel (more : list (string * Value)) (items : list Value)
  : Value :=
  VObj ([ ("title", VStr "Daily Talks");
          ("description", VStr "A talk a day");
          ("itunes:image", VObj [("@_href", VStr "https://cdn.example/cover.jpg")]);
          ("language", VStr "en");
          ("itunes:explicit", VBool false);
          ("atom:link", VObj [("@_href", VStr "https://cdn.example/feed.xml")]);
          ("itunes:category", VObj [("@_text", VStr "Arts")]) ]
        ++ more ++ [("item", VArr items)]).

Definition exampleFeed (channel : Value) : Value :=
  VObj [ ("rss",
          VObj [ ("@_version", VStr "2.0");
                 ("@_xmlns:content",
                  VStr "http://purl.org/rss/1.0/modules/content/");
                 ("@_xmlns:googleplay",
                  VStr "http://www.google.com/schemas/play-podcasts/1.0");
                 ("@_xmlns:itunes",
                  VStr "http://www.itunes.com/dtds/podcast-1.0.dtd");
                 ("channel", channel) ]) ].

(** A channel with the required tags, the category and the sub-category
    given, and no items. *)
Definition channelWithCategory (category subcategory : string) : Value :=
  VObj [ ("title", VStr "Daily Talks");
         ("description", VStr "A talk a day");
         ("itunes:image",
          VObj [("@_href", VStr "https://cdn.example/cover.jpg")]);
         ("language", VStr "en");
         ("itunes:explicit", VBool false);
         ("atom:link",
          VObj [("@_href", VStr "https://cdn.example/feed.xml")]);
         ("itunes:category",
          VObj [ ("@_text", VStr category);
                 ("itunes:category", VObj [("@_text", VStr subcategory)]) ]) ].


(** One item whose optional episode type and season number are invalid. *)
Definition channelWithInvalidOptionalFields : Value :=
  exampleChannel []
    [exampleItem "Episode 1" (VStr "ep-1")
       [ ("itunes:episodeType", VStr "teaser");
         ("itunes:season", VStr "two") ]].

(** One item whose children are the required tags and [itunes:image]. *)
Definition channelWithItemImage : Value :=
  exampleChannel []
    [requiredItem "Episode 1"
       [("itunes:image",
         VObj [("@_href", VStr "https://cdn.example/ep1.jpg")])]].

(** The tag names that the item validator takes as explained. *)
Definition explainedItemTags (rt : Runtime) (itunesType : Value) : list string :=
  EPISODE_STRUCTURAL_TAGS
  ++ map fst (REQUIRED_EPISODE_ATTRS itunesType)
  ++ map fst (OPTIONAL_EPISODE_ATTRS rt itunesType).

(** The tag names that the channel validator takes as explained. *)
Definition explainedChannelTags (rt : Runtime) : list string :=
  CHANNEL_STRUCTURAL_TAGS
  ++ map fst (REQUIRED_CHANNEL_ATTRS rt)
  ++ map fst (OPTIONAL_CHANNEL_ATTRS rt).

(** [process.env.NODE_ENV === 'test'] *)
Definition nodeEnvIsTest (rt : Runtime) : bool :=
  match env_NODE_ENV rt with
  | Some e => (e =? "test")%string
  | None => false
  end.

(** The text that [startsWith] receives for [process.env.PUBLIC_URL_BASE]:
    an unset variable reads as [undefined]. *)
Definition publicUrlBase (rt : Runtime) : string :=
  match env_PUBLIC_URL_BASE rt with
  | Some base => base
  | None => "undefined"
  end.

(** [process.env.CI] is set and not empty. *)
Definition inPipeline (rt : Runtime) : bool :=
  match env_CI rt with
  | Some ci => negb (ci =? EmptyString)%string
  | None => false
  end.

(** A pipeline run under [NODE_ENV=test] with a public base. *)
Definition testPipelineRuntime : Runtime :=
  exampleRuntime false (Some "true") (Some "test")
    (Some "https://podcast.example/").

(** A pipeline run with a public base and no [NODE_ENV]. *)
Definition pipelineRuntime : Runtime :=
  exampleRuntime false (Some "true") None (Some "https://podcast.example/").

(** *** Duplicate identifiers *)

(** The errors that [checkEpisodes] builds with [new Error] and records as
    always fatal are those of its two duplicate blocks: every checker
    failure is an assertion error or a type error, and the unexpected-tag
    finding is strict-only. *)
Definition isDuplicateViolation (v : Error * bool) : bool :=
  match err_name (fst v) with
  | PlainError => negb (snd v)
  | _ => false
  end.

(** The duplicate violations recorded so far, oldest first. *)
Definition duplicates (st : State) : list (Error * bool) :=
  filter isDuplicateViolation (handled st).

(** What [guids] holds after an item: [if (guid) guids.add(guid)]. *)
Definition noteSeen (set : list Value) (v : Value) : list Value :=
  if truthy v then set_add set v else set.

(** An earlier item bears the same guid, or the same episode index. *)
Definition sameGuidBefore (pre : list Value) (item : Value) : bool :=
  existsb (fun earlier => strictEq (guidOf earlier) (guidOf item)) pre.

Definition sameEpisodeBefore (pre : list Value) (item : Value) : bool :=
  existsb (fun earlier => strictEq (episodeOf earlier) (episodeOf item)) pre.

(** The statement of the duplicate rule, in the words of the specification:
    an item whose (truthy) guid an earlier item bears is reported once, with
    its title and the value; the first bearer is not. *)
Definition spec_duplicateGuid (pre : list Value) (item : Value)
  : list (Error * bool) :=
  if truthy (guidOf item) && sameGuidBefore pre item
  then [(duplicateGuidError item, false)]
  else [].

Definition spec_duplicateEpisode (pre : list Value) (item : Value)
  : list (Error * bool) :=
  if truthy (episodeOf item) && sameEpisodeBefore pre item
  then [(duplicateEpisodeError item, false)]
  else [].

Definition spec_duplicateBoth (pre : list Value) (item : Value)
  : list (Error * bool) :=
  (spec_duplicateGuid pre item ++ spec_duplicateEpisode pre item)%list.

(** The reports of a collection, item after item, each against the items
    before it. *)
Fixpoint spec_report (perItem : list Value -> Value -> list (Error * bool))
    (pre items : list Value) : list (Error * bool) :=
  match items with
  | [] => []
  | item :: rest =>
      (perItem pre item ++ spec_report perItem (pre ++ [item]) rest)%list
  end.

(** A checker throws assertion errors only. *)
Definition assertionOnly (c : Value -> string -> outcome unit) : Prop :=
  forall v f e, c v f = Throw e -> err_name e = AssertionError.

(** A validator leaves the state alone and throws no error made with
    [new Error]. *)
Definition quietValidator (validate : Validator) : Prop :=
  forall s f st,
    fst (validate s f st) = st
    /\ forall e, snd (validate s f st) = Throw e -> err_name e <> PlainError.





(** Three items without a guid text: one has no guid tag, two have an
    empty one. *)
Definition channelWithoutGuids : Value :=
  exampleChannel []
    [ requiredItem "Episode 1" [];
      exampleItem "Episode 2" (VStr EmptyString) [];
      exampleItem "Episode 3" (VStr EmptyString) [] ].

(** The items that the loop goes through. *)
Definition itemList (channel : Value) : list Value :=
  match iterate (itemsOf channel) with
  | Ok items => items
  | Throw _ => []
  end.

(** *** Statements about single checkers *)

(** What the reachability check reports once the request is sent: [None]
    when it passes, else the status that the message shows. *)
Definition reachabilityVerdict (rt : Runtime) (url : string)
    (expectedContentTypes : list string) : option Value :=
  match rq_head rt url with
  | inl res =>
      if looseEq (res_status res) (VNum 200)
         && looseEq (res_accept_ranges res) (VStr "bytes")
         && (match expectedContentTypes with
             | [] => true
             | _ :: _ =>
                 existsb (fun t => strictEq (VStr t) (res_content_type res))
                   expectedContentTypes
             end)
      then None else Some VUndefined
  | inr status =>
      if looseEq status (VNum 200) then None else Some status
  end.

(** The first two code units of a language tag are a listed code. *)
Definition listedLanguage (rt : Runtime) (s : string) : bool :=
  existsb (fun code => strictEq code (VStr (substring 0 2 s))) (ISO_CODES rt).

(** A run-time environment whose answers lack the byte-range header. *)
Definition noRangesRuntime : Runtime :=
  mkRuntime false None None None
    (fun _ => inl (mkResponse (VNum 200) VUndefined (VStr "image/png")))
    (fun _ => true) (fun _ => true) [] (tableGet []) false.

(** *** Statements about the section validators *)

(** The violations that [checkRSSFormat] records for a document. *)
Definition rssViolations (feed : Value) : list (Error * bool) :=
  map (fun kv =>
         (assertionError ("RSS property " ++ fst kv ++ " should be set to "
                          ++ snd kv), false))
    (filter (fun kv =>
               negb (looseEq (get feed ("rss." ++ fst kv) (VStr EmptyString))
                       (VStr (snd kv))))
       REQUIRED_RSS_ATTRS).

(** The wording with which a required field rejects the absent value. *)
Definition absentChannelWording (field : string) : string :=
  if (field =? "itunes:explicit")%string then " must be a boolean."
  else " must be a string.".


(** The first three statements of [checkChannel] (the required fields, the
    category, the optional fields), followed by [k]. *)
Definition channelFieldChecks {A : Type} (rt : Runtime) (channel : Value)
    (k : M A) : M A :=
  forEach (REQUIRED_CHANNEL_ATTRS rt)
    (checkRequiredField rt channel (fun field => Ok field)) ;;
  try_catch
    (let category := get channel "itunes:category.@_text" (VStr EmptyString) in
     let subcategory :=
       get channel "itunes:category.itunes:category.@_text" VNull in
     lift (checkItunesCategory rt category subcategory))
    (fun err => handleError rt err false) ;;
  forEach (OPTIONAL_CHANNEL_ATTRS rt) (checkOptionalField rt channel) ;;
  k.

(** The last statement of [checkChannel]: the unexpected tags. *)
Definition channelTagsBlock (rt : Runtime) (channel : Value) : M unit :=
  keys <- lift (objectKeys channel) ;;
  let additionalChannelTags := without keys (explainedChannelTags rt) in
  if (Z.of_nat (List.length additionalChannelTags) >? 0) then
    handleError rt
      (newError ("Channel has additional tags: "
                 ++ join "," additionalChannelTags)) true
  else ret tt.

(** The channel fields whose validator probes the network. *)
Definition CHANNEL_URL_FIELDS : list string :=
  ["itunes:image.@_href"; "atom:link.@_href"; "link"; "itunes:new-feed-url"].

(** The strict-only violations recorded so far, oldest first. *)
Definition strictOnly (st : State) : list (Error * bool) :=
  filter snd (handled st).

(** The unexpected-tag finding of a channel and of an item. *)
Definition channelTagReport (rt : Runtime) (channel : Value)
  : list (Error * bool) :=
  match without (ownKeys channel) (explainedChannelTags rt) with
  | [] => []
  | tags => [(newError ("Channel has additional tags: " ++ join "," tags),
              true)]
  end.

Definition itemTagReport (rt : Runtime) (itunesType item : Value)
  : list (Error * bool) :=
  match without (ownKeys item) (explainedItemTags rt itunesType) with
  | [] => []
  | tags => [(newError (toString (member item "title")
                        ++ ": Has additional tags: " ++ join "," tags), true)]
  end.

(** The lines of the error stream, and the messages of the violations that
    count for the exit code. *)
Definition errorLines (st : State) : list string :=
  map snd
    (filter (fun line => match fst line with StdError => true | StdWarn => false end)
       (console st)).


(** A channel with two tags that the channel validator does not know. *)
Definition channelWithUnknownTags : Value :=
  exampleChannel [("podcast:locked", VStr "yes"); ("ttl", VNum 60)] [].


(** *** A podcast record *)

(** A serial show with two episodes; it gives no language, and its second
    episode gives no episode number. *)
Definition examplePodcast : Value :=
  VObj [ ("title", VStr "Daily Talks");
         ("description", VStr "A talk a day");
         ("imageUrl", VStr "https://cdn.example/cover.jpg");
         ("category", VStr "Arts");
         ("subcategory", VStr "Books");
         ("author", VStr "The Hosts");
         ("ownerName", VStr "Owner");
         ("ownerEmail", VStr "owner@cdn.example");
         ("type", VStr "serial");
         ("episodes",
          VArr [ VObj [ ("guid", VStr "ep-1"); ("title", VStr "Episode 1");
                        ("audioUrl", VStr "https://cdn.example/audio/1.mp3");
                        ("audioSize", VNum 1024);
                        ("audioType", VStr "audio/mpeg");
                        ("episode", VNum 1) ];
                 VObj [ ("guid", VStr "ep-2"); ("title", VStr "Episode 2");
                        ("audioUrl", VStr "https://cdn.example/audio/2.mp3");
                        ("audioSize", VNum 2048);
                        ("audioType", VStr "audio/mpeg") ] ]) ].

(** The feed that the generator builds for it. *)
Definition exampleBuiltFeed : Value :=
  match createFeed examplePodcast "Tue, 03 Nov 2026 08:00:00 +0000" with
  | Ok feed => feed
  | Throw _ => VNull
  end.

(** * Properties *)

(** ** Strings and numbers *)

Lemma allb_app (p : ascii -> bool) (s t : string) :
  allb p (s ++ t) = allb p s && allb p t.
Proof.
  induction s as [|c s IH]; simpl; [reflexivity|].
  rewrite IH. now rewrite andb_assoc.
Qed.

Lemma allb_weaken (p q : ascii -> bool) (s : string) :
  (forall c, p c = true -> q c = true) -> allb p s = true -> allb q s = true.
Proof.
  intros Hpq. induction s as [|c s IH]; simpl; [reflexivity|].
  intros H. apply andb_true_iff in H as [Hc Hs].
  now rewrite (Hpq _ Hc), IH.
Qed.

Lemma skipWhiteSpace_numeric (s : string) :
  allb isNumericChar (skipWhiteSpace s) = true -> allb isNumericChar s = true.
Proof.
  induction s as [|c s IH]; simpl; [reflexivity|].
  destruct (isWhiteSpace c) eqn:Hc.
  - intros H. rewrite (IH H). unfold isNumericChar. now rewrite Hc.
  - simpl. trivial.
Qed.

Lemma splitSign_numeric (s : string) :
  allb isNumericChar (snd (splitSign s)) = true -> allb isNumericChar s = true.
Proof.
  destruct s as [|c s]; simpl; [reflexivity|].
  destruct (Ascii.eqb c "-") eqn:Hm; simpl.
  - intros ->. unfold isNumericChar. rewrite Hm. now rewrite !orb_true_r.
  - destruct (Ascii.eqb c "+") eqn:Hp; simpl; [|trivial].
    intros ->. unfold isNumericChar. rewrite Hp. now rewrite !orb_true_r.
Qed.

Lemma digitsFrom_numeric (s : string) (acc : option Z) :
  allb isNumericChar (snd (digitsFrom acc s)) = true ->
  allb isNumericChar s = true.
Proof.
  revert acc. induction s as [|c s IH]; intros acc; simpl; [reflexivity|].
  destruct (isDigit c) eqn:Hc; simpl; [|trivial].
  intros H. rewrite (IH _ H). unfold isNumericChar. rewrite Hc.
  now rewrite !orb_true_r.
Qed.

Lemma whiteSpace_numeric (s : string) :
  allb isWhiteSpace s = true -> allb isNumericChar s = true.
Proof.
  apply allb_weaken. intros c Hc. unfold isNumericChar. now rewrite Hc.
Qed.

(** A string that converts to a number holds numeric characters only. *)
Lemma stringToNumber_numeric (s : string) (z : Z) :
  stringToNumber s = Some z -> allb isNumericChar s = true.
Proof.
  unfold stringToNumber. intros H.
  apply skipWhiteSpace_numeric.
  destruct (skipWhiteSpace s) as [|c t] eqn:Ht; [reflexivity|].
  apply splitSign_numeric.
  destruct (splitSign (String c t)) as [sign body]. simpl.
  apply (digitsFrom_numeric body None).
  destruct (digitsFrom None body) as [ip r1]. simpl.
  destruct r1 as [|a r2]; simpl in H |- *; [reflexivity|].
  destruct (Ascii.eqb a ".") eqn:Ha.
  - unfold isNumericChar at 1. rewrite Ha. rewrite !orb_true_r. simpl.
    apply (digitsFrom_numeric r2 None).
    destruct (digitsFrom None r2) as [fp r3]. simpl.
    destruct (allb isWhiteSpace r3) eqn:Hw; [|discriminate].
    now apply whiteSpace_numeric.
  - destruct (isWhiteSpace a && allb isWhiteSpace r2) eqn:Hw; [|discriminate].
    change (allb isNumericChar (String a r2) = true).
    now apply whiteSpace_numeric.
Qed.

(** No message ending in the length wording is a numeric string. *)
Lemma length_message_not_numeric (fieldName : string) :
  stringToNumber (fieldName ++ " must not have more than 255 characters.") = None.
Proof.
  destruct (stringToNumber _) as [z|] eqn:H; [|reflexivity].
  apply stringToNumber_numeric in H.
  rewrite allb_app in H. apply andb_true_iff in H as [_ H].
  vm_compute in H. discriminate.
Qed.

(** The length assertion of the two string checkers compares a boolean with
    the message text, and never fails. *)
Lemma length_assertion_passes (b : bool) (fieldName : string) :
  assert_notEqual (VBool b)
    (VStr (fieldName ++ " must not have more than 255 characters.")) None
  = Ok tt.
Proof.
  unfold assert_notEqual, looseEq, looseEqPrim. simpl.
  rewrite length_message_not_numeric. now destruct b.
Qed.

(** ** Loose equality on values of one primitive kind *)

Lemma looseEq_str (a b : string) : looseEq (VStr a) (VStr b) = (a =? b)%string.
Proof. reflexivity. Qed.

Lemma looseEq_num (a b : Z) : looseEq (VNum a) (VNum b) = (a =? b).
Proof. reflexivity. Qed.

Lemma looseEq_bool (a b : bool) : looseEq (VBool a) (VBool b) = Bool.eqb a b.
Proof. now destruct a, b. Qed.

Lemma assert_typeof (v : Value) (kind msg : string) :
  assert_equal (VStr (typeof v)) (VStr kind) msg
  = if (typeof v =? kind)%string then Ok tt else Throw (assertionError msg).
Proof. reflexivity. Qed.

Lemma assert_bool (b expected : bool) (msg : string) :
  assert_equal (VBool b) (VBool expected) msg
  = if Bool.eqb b expected then Ok tt else Throw (assertionError msg).
Proof. unfold assert_equal. now rewrite looseEq_bool. Qed.

(** ** The CDATA checker *)

(** The fourth assertion compares the interior, [s.slice(9, -3)], with the
    closing marker, and the fifth requires the interior not to hold the
    marker: no value passes both. *)
Lemma checkCDATAString_never_accepts (s : Value) (fieldName : string) :
  isOk (checkCDATAString s fieldName) = false.
Proof.
  unfold checkCDATAString, andThen.
  rewrite assert_typeof, assert_bool.
  destruct (typeof s =? "string")%string; [|reflexivity].
  destruct (Bool.eqb _ true); [|reflexivity].
  unfold assert_equal at 1. destruct (looseEq _ _); [|reflexivity].
  unfold assert_equal at 1. rewrite looseEq_str.
  destruct (String.eqb_spec (slice (str_of s) 9 (-3)) "]]>") as [E|_];
    [|reflexivity].
  rewrite E. reflexivity.
Qed.

(** C2 (defect).  The envelope [<![CDATA[hello]]>] is rejected with the
    wording of the missing closing marker, and in fact the checker accepts no
    value at all, where the claim has it accept exactly the well-formed
    envelopes. *)
Theorem checkCDATAString_rejects_wellformed_envelope :
  checkCDATAString (VStr "<![CDATA[hello]]>") "content:encoded"
  = Throw (assertionError
             "content:encoded must end with ']]>' if it's CDATA.")
  /\ (forall (s : Value) (fieldName : string),
        isOk (checkCDATAString s fieldName) = false).
Proof.
  split.
  - reflexivity.
  - exact checkCDATAString_never_accepts.
Qed.

(** ** The two string checkers and their length bound *)

Lemma checkDefaultString_shape (s fieldName : string) :
  isOk (checkDefaultString (VStr s) fieldName) = stringShapeOk s.
Proof.
  unfold checkDefaultString, stringShapeOk, andThen, assert_doesNotMatch.
  rewrite assert_typeof, assert_bool, length_assertion_passes. simpl.
  destruct (re_leading_space s); [reflexivity|].
  destruct (re_trailing_space s); [reflexivity|].
  now destruct (strlen s >? 0).
Qed.

Lemma checkDescriptionString_shape (s fieldName : string) :
  isOk (checkDescriptionString (VStr s) fieldName) = stringShapeOk s.
Proof.
  unfold checkDescriptionString, stringShapeOk, andThen, assert_doesNotMatch.
  rewrite assert_typeof, assert_bool, length_assertion_passes. simpl.
  destruct (re_leading_space s); [reflexivity|].
  destruct (re_trailing_space s); [reflexivity|].
  now destruct (strlen s >? 0).
Qed.

Lemma strlen_repeatChar (n : nat) (c : ascii) :
  strlen (repeatChar n c) = Z.of_nat n.
Proof.
  unfold strlen. f_equal. induction n as [|n IH]; simpl; congruence.
Qed.

Lemma stringShapeOk_repeat_a (n : nat) :
  stringShapeOk (repeatChar (S n) "a") = true.
Proof.
  unfold stringShapeOk. rewrite strlen_repeatChar.
  replace (Z.of_nat (S n) >? 0) with true
    by (symmetry; apply Z.gtb_lt; lia).
  rewrite andb_true_r. simpl re_leading_space. simpl negb at 1.
  rewrite andb_true_l.
  induction n as [|n IH]; [reflexivity|].
  simpl in IH |- *. exact IH.
Qed.

(** C3 (defect).  A string of 256 characters passes the default-string
    checker and one of 4001 characters passes the description-string checker:
    whether either checker accepts a string depends on its shape alone, never
    on its length, where the claim has every longer string raise a
    violation. *)
Theorem string_checkers_ignore_length :
  checkDefaultString (VStr (repeatChar 256 "a")) "title" = Ok tt
  /\ checkDescriptionString (VStr (repeatChar 4001 "a")) "description" = Ok tt
  /\ (forall s fieldName : string,
        isOk (checkDefaultString (VStr s) fieldName) = stringShapeOk s)
  /\ (forall s fieldName : string,
        isOk (checkDescriptionString (VStr s) fieldName) = stringShapeOk s).
Proof.
  assert (Hok : forall o : outcome unit, isOk o = true -> o = Ok tt).
  { intros [[]|e]; [reflexivity|discriminate]. }
  split; [|split; [|split]].
  - apply Hok. rewrite checkDefaultString_shape.
    apply (stringShapeOk_repeat_a 255).
  - apply Hok. rewrite checkDescriptionString_shape.
    apply (stringShapeOk_repeat_a 4000).
  - exact checkDefaultString_shape.
  - exact checkDescriptionString_shape.
Qed.

(** ** The number-string checker *)

Lemma skipWhiteSpace_app (ws s : string) :
  allb isWhiteSpace ws = true -> skipWhiteSpace (ws ++ s) = skipWhiteSpace s.
Proof.
  induction ws as [|c ws IH]; simpl; [reflexivity|].
  intros H. apply andb_true_iff in H as [Hc Hws]. now rewrite Hc, IH.
Qed.

Lemma isDigit_code (d : ascii) :
  isDigit d = true -> 48 <= ascii_code d <= 57.
Proof. unfold isDigit. intros H. apply andb_true_iff in H. lia. Qed.

Lemma digit_not_whiteSpace (d : ascii) :
  isDigit d = true -> isWhiteSpace d = false.
Proof.
  intros H. apply isDigit_code in H. unfold isWhiteSpace. cbv zeta.
  destruct (Z.leb_spec 9 (ascii_code d)), (Z.leb_spec (ascii_code d) 13),
    (Z.eqb_spec (ascii_code d) 32), (Z.eqb_spec (ascii_code d) 160);
    simpl; try reflexivity; lia.
Qed.

Lemma digit_not_char (d c : ascii) :
  isDigit d = true -> isDigit c = false -> Ascii.eqb d c = false.
Proof.
  intros Hd Hc. destruct (Ascii.eqb_spec d c) as [->|]; congruence.
Qed.

Lemma digitValue_nonneg (d : ascii) : isDigit d = true -> 0 <= digitValue d.
Proof. intros H. apply isDigit_code in H. unfold digitValue. lia. Qed.

Lemma digitsFrom_nonneg (s : string) (a : Z) :
  0 <= a -> exists n, fst (digitsFrom (Some a) s) = Some n /\ 0 <= n.
Proof.
  revert a. induction s as [|c s IH]; intros a Ha; cbn [digitsFrom].
  - now exists a.
  - destruct (isDigit c) eqn:Hc.
    + apply IH. pose proof (digitValue_nonneg c Hc). lia.
    + now exists a.
Qed.

Lemma parseInt_digit_prefix (ws rest : string) (d : ascii) :
  allb isWhiteSpace ws = true -> isDigit d = true ->
  exists n, parseInt (ws ++ String d rest) = Some n /\ 0 <= n.
Proof.
  intros Hws Hd. unfold parseInt. rewrite (skipWhiteSpace_app _ _ Hws).
  simpl skipWhiteSpace. rewrite (digit_not_whiteSpace d Hd).
  unfold splitSign.
  rewrite (digit_not_char d "-" Hd eq_refl), (digit_not_char d "+" Hd eq_refl).
  cbn [digitsFrom]. rewrite Hd.
  destruct (digitsFrom_nonneg rest (10 * 0 + digitValue d)) as (n & Hn & Hpos).
  { pose proof (digitValue_nonneg d Hd). lia. }
  rewrite Hn. exists (1 * n). split; [reflexivity|lia].
Qed.

Lemma checkNumberString_parseInt (s fieldName : string) :
  isOk (checkNumberString (VStr s) fieldName) = geZero (parseInt s).
Proof.
  unfold checkNumberString, andThen. rewrite assert_typeof, !assert_bool.
  simpl. now destruct (parseInt s) as [n|]; simpl; [destruct (n >=? 0)|].
Qed.

(** C9.  The number-string checker accepts exactly the strings that
    [parseInt] reads, in base 10, as a number that is at least zero: so any
    string that starts, after optional white space, with a digit passes,
    whatever follows the digits; [12abc] and [3.9] pass, [-1] and [abc] each
    raise a violation. *)
Theorem checkNumberString_accepts_numeric_prefix :
  (forall s fieldName : string,
     isOk (checkNumberString (VStr s) fieldName) = geZero (parseInt s))
  /\ (forall (ws rest fieldName : string) (d : ascii),
        allb isWhiteSpace ws = true -> isDigit d = true ->
        checkNumberString (VStr (ws ++ String d rest)) fieldName = Ok tt)
  /\ checkNumberString (VStr "12abc") "size" = Ok tt
  /\ checkNumberString (VStr "3.9") "size" = Ok tt
  /\ checkNumberString (VStr "-1") "size"
     = Throw (assertionError "size must be a positive number or zero.")
  /\ checkNumberString (VStr "abc") "size"
     = Throw (assertionError "size is not a valid number string.").
Proof.
  split; [exact checkNumberString_parseInt|].
  split; [|repeat split].
  intros ws rest fieldName d Hws Hd.
  destruct (parseInt_digit_prefix ws rest d Hws Hd) as (n & Hn & Hpos).
  pose proof (checkNumberString_parseInt (ws ++ String d rest) fieldName) as H.
  rewrite Hn in H. simpl in H.
  replace (n >=? 0) with true in H by (symmetry; apply Z.geb_le; lia).
  destruct (checkNumberString _ _) as [[]|e]; [reflexivity|discriminate].
Qed.

Lemma checkNumberString_accepts_numeric_prefix_witness :
  checkNumberString (VStr " 42 bytes") "enclosure.@_length" = Ok tt.
Proof.
  apply (proj1 (proj2 checkNumberString_accepts_numeric_prefix)
           " " "2 bytes" "enclosure.@_length" "4"%char); reflexivity.
Defined.

(** ** Reasoning about computations in [M] *)

Section Preservation.

Context {A : Type}.
Variable I : State -> Prop.

Lemma preserves_ret (a : A) : preserves I (ret a).
Proof. intros st H. exact H. Qed.

Lemma preserves_lift (o : outcome A) : preserves I (lift o).
Proof. intros st H. exact H. Qed.

Lemma preserves_bind {B : Type} (m : M B) (k : B -> M A) :
  preserves I m -> (forall b, preserves I (k b)) -> preserves I (bind m k).
Proof.
  intros Hm Hk st H. unfold bind. specialize (Hm st H).
  destruct (m st) as [st1 [b|e]]; simpl in *; [now apply Hk|exact Hm].
Qed.

Lemma preserves_try_catch (body : M A) (handler : Error -> M A) :
  preserves I body ->
  (forall e, throwable body e -> preserves I (handler e)) ->
  preserves I (try_catch body handler).
Proof.
  intros Hb Hh st H. unfold try_catch. specialize (Hb st H).
  destruct (body st) as [st1 [a|e]] eqn:E; simpl in *; [exact Hb|].
  apply Hh; [|exact Hb]. exists st. now rewrite E.
Qed.

Lemma preserves_if (c : bool) (m1 m2 : M A) :
  preserves I m1 -> preserves I m2 -> preserves I (if c then m1 else m2).
Proof. now destruct c. Qed.

End Preservation.

Lemma preserves_forEach {X : Type} (I : State -> Prop) (l : list X)
    (body : X -> M unit) :
  (forall x, In x l -> preserves I (body x)) -> preserves I (forEach l body).
Proof.
  induction l as [|x l IH]; intros H; simpl.
  - apply preserves_ret.
  - apply preserves_bind; [apply H; now left|].
    intros _. apply IH. intros y Hy. apply H. now right.
Qed.


(** ** Recording a violation *)

Section Recording.

Variable rt : Runtime.

Lemma handleError_eq (err : Error) (isStrict : bool) (st : State) :
  handleError rt err isStrict st = (recordViolation rt err isStrict st, Ok tt).
Proof.
  unfold handleError, recordViolation, bind, record_handled.
  now destruct (isStrict && negb (args_strict rt)).
Qed.

Lemma handled_recordViolation (err : Error) (isStrict : bool) (st : State) :
  handled (recordViolation rt err isStrict st)
  = (handled st ++ [(err, isStrict)])%list.
Proof.
  unfold recordViolation. now destruct (isStrict && negb (args_strict rt)).
Qed.

Lemma requests_recordViolation (err : Error) (isStrict : bool) (st : State) :
  requests (recordViolation rt err isStrict st) = requests st.
Proof.
  unfold recordViolation. now destruct (isStrict && negb (args_strict rt)).
Qed.






End Recording.

(** ** The section validators keep the exit code consistent *)

Section ExitCode.

Variable rt : Runtime.

Let I : State -> Prop := exitConsistent (args_strict rt).

















Lemma main_returns_exitCode (feed : Value) (st : State) (code : Z) :
  snd (main rt feed st) = Ok code -> code = exitCode (fst (main rt feed st)).
Proof.
  unfold main, bind, process_exit.
  destruct (checkRSSFormat rt feed st) as [s1 [[]|e1]]; [|discriminate].
  destruct (checkChannel rt (channelOf feed) s1) as [s2 [[]|e2]];
    [|discriminate].
  destruct (checkEpisodes rt (channelOf feed) s2) as [s3 [[]|e3]];
    [|discriminate].
  simpl. congruence.
Qed.

End ExitCode.

(** ** The loop over the items *)

(** A list that the iteration protocol goes through is gone through in the
    same way by the index loop. *)
Lemma forOf_iterate (rt : Runtime) (items : Value) (elems : list Value) :
  iterate items = Ok elems -> forOf rt items = Ok elems.
Proof.
  unfold forOf. destruct (emit_ES2015 rt); [trivial|].
  destruct items; simpl; congruence.
Qed.

(** The loop receives an array or a falsy value: every other value has been
    wrapped into an array. *)
Lemma itemsOf_array_or_falsy (channel : Value) :
  isArray (itemsOf channel) = true \/ truthy (itemsOf channel) = false.
Proof.
  unfold itemsOf.
  destruct (truthy (get channel "item" (VArr []))) eqn:Ht;
    destruct (isArray (get channel "item" (VArr []))) eqn:Ha; simpl; auto.
Qed.

(** The item validator on a list that the iteration protocol goes
    through. *)
Lemma checkEpisodes_iterable (rt : Runtime) (channel : Value)
    (items : list Value) (st : State) :
  iterate (itemsOf channel) = Ok items ->
  checkEpisodes rt channel st
  = (try_catch
       (len <- lift (readMember (itemsOf channel) "length") ;;
        lift (checkNatural len "Episode count"))
       (fun err => handleError rt err false) ;;
     episodesLoop rt
       (REQUIRED_EPISODE_ATTRS (get channel "itunes:type" (VStr EmptyString)))
       (OPTIONAL_EPISODE_ATTRS rt
          (get channel "itunes:type" (VStr EmptyString)))
       items ([], [])) st.
Proof.
  intros Hit. unfold checkEpisodes. cbv zeta.
  now rewrite (forOf_iterate rt _ _ Hit).
Qed.

(** ** Which computations complete *)

Section Completion.

Variable rt : Runtime.

(** A checker failure is caught where the checker is invoked. *)
Lemma caught_completes (body : M unit) (st : State) :
  snd (try_catch body (fun err => handleError rt err false) st) = Ok tt.
Proof.
  unfold try_catch. destruct (body st) as [st1 [[]|e]]; [reflexivity|].
  now rewrite handleError_eq.
Qed.

Lemma forEach_completes {X : Type} (l : list X) (body : X -> M unit) :
  (forall x st, snd (body x st) = Ok tt) ->
  forall st, snd (forEach l body st) = Ok tt.
Proof.
  intros H. induction l as [|x l IH]; intros st; simpl; [reflexivity|].
  unfold bind. specialize (H x st).
  destruct (body x st) as [st1 [[]|e]]; [apply IH|discriminate].
Qed.

Lemma checkRequiredField_completes (node : Value)
    (fieldName : string -> outcome string) (entry : string * Validator)
    (st : State) :
  snd (checkRequiredField rt node fieldName entry st) = Ok tt.
Proof. destruct entry. apply caught_completes. Qed.

Lemma checkOptionalField_completes (node : Value)
    (entry : string * Validator) (st : State) :
  snd (checkOptionalField rt node entry st) = Ok tt.
Proof.
  destruct entry as [field validate]. unfold checkOptionalField.
  destruct (strictEq _ _); [reflexivity|apply caught_completes].
Qed.

Lemma checkRSSFormat_completes (feed : Value) (st : State) :
  snd (checkRSSFormat rt feed st) = Ok tt.
Proof.
  unfold checkRSSFormat. apply forEach_completes.
  intros [key value] st'. apply caught_completes.
Qed.

Lemma bind_completes {X Y : Type} (m : M X) (k : X -> M Y) (st : State)
    (x : X) (y : Y) :
  snd (m st) = Ok x -> (forall st', snd (k x st') = Ok y) ->
  snd (bind m k st) = Ok y.
Proof.
  intros Hm Hk. unfold bind. destruct (m st) as [st1 [x'|e]]; simpl in Hm.
  - injection Hm as ->. apply Hk.
  - discriminate.
Qed.

Lemma checkChannel_completes (channel : Value) (st : State) :
  isNullish channel = false -> snd (checkChannel rt channel st) = Ok tt.
Proof.
  intros Hc. unfold checkChannel.
  eapply bind_completes.
  { apply forEach_completes. intros. apply checkRequiredField_completes. }
  intros st1. eapply bind_completes; [apply caught_completes|].
  intros st2. eapply bind_completes.
  { apply forEach_completes. intros. apply checkOptionalField_completes. }
  intros st3. unfold objectKeys. rewrite Hc.
  unfold bind, lift.
  destruct (_ >? 0); [now rewrite handleError_eq|reflexivity].
Qed.

Lemma get_nullish (object : Value) (path : string) (defaultValue : Value) :
  isNullish object = true -> get object path defaultValue = defaultValue.
Proof. intros H. unfold get. now rewrite H. Qed.

Lemma truthy_guid_not_nullish (item : Value) :
  truthy (guidOf item) = true -> isNullish item = false.
Proof.
  destruct (isNullish item) eqn:H; [|reflexivity].
  unfold guidOf. now rewrite (get_nullish _ _ _ H).
Qed.

Lemma truthy_episode_not_nullish (item : Value) :
  truthy (episodeOf item) = true -> isNullish item = false.
Proof.
  destruct (isNullish item) eqn:H; [|reflexivity].
  unfold episodeOf. now rewrite (get_nullish _ _ _ H).
Qed.

Lemma readMember_not_nullish (item : Value) (key : string) :
  isNullish item = false -> readMember item key = Ok (member item key).
Proof. intros H. unfold readMember. now rewrite H. Qed.

(** What the guid block does to the state and to the set. *)
Lemma checkDuplicateGuid_eq (item : Value) (guids : list Value) (st : State) :
  checkDuplicateGuid rt item guids st
  = if truthy (guidOf item) then
      ((if set_has guids (guidOf item)
        then recordViolation rt (duplicateGuidError item) false st
        else st),
       Ok (set_add guids (guidOf item)))
    else (st, Ok guids).
Proof.
  unfold checkDuplicateGuid, duplicateGuidError.
  destruct (truthy (guidOf item)) eqn:Hg; [|reflexivity].
  unfold bind, lift. rewrite (readMember_not_nullish _ _
                                (truthy_guid_not_nullish _ Hg)).
  destruct (set_has guids (guidOf item)); [|reflexivity].
  now rewrite handleError_eq.
Qed.

Lemma checkDuplicateEpisode_eq (item : Value) (episodes : list Value)
    (st : State) :
  checkDuplicateEpisode rt item episodes st
  = if truthy (episodeOf item) then
      ((if set_has episodes (episodeOf item)
        then recordViolation rt (duplicateEpisodeError item) false st
        else st),
       Ok (set_add episodes (episodeOf item)))
    else (st, Ok episodes).
Proof.
  unfold checkDuplicateEpisode, duplicateEpisodeError.
  destruct (truthy (episodeOf item)) eqn:Hg; [|reflexivity].
  unfold bind, lift. rewrite (readMember_not_nullish _ _
                                (truthy_episode_not_nullish _ Hg)).
  destruct (set_has episodes (episodeOf item)); [|reflexivity].
  now rewrite handleError_eq.
Qed.

Lemma checkAdditionalTags_completes
    (required optional : list (string * Validator)) (item : Value)
    (st : State) :
  isNullish item = false ->
  snd (checkAdditionalTags rt required optional item st) = Ok tt.
Proof.
  intros H. unfold checkAdditionalTags, objectKeys, bind, lift.
  rewrite H, (readMember_not_nullish _ _ H).
  destruct (_ >? 0); [now rewrite handleError_eq|reflexivity].
Qed.





End Completion.

(** ** The exit code *)





(** ** Checkers on absent values and on values of the wrong kind *)

Lemma typeof_not_string (v : Value) :
  typeof v <> "string" -> (typeof v =? "string")%string = false.
Proof. intros H. now apply String.eqb_neq. Qed.


Section AbsentValues.

Variable rt : Runtime.






Lemma checkItunesCategory_unknown (cat : string) (subcat : Value) :
  truthy (orDefault (ITUNES_CATEGORIES_get rt cat) VNull) = false ->
  checkItunesCategory rt (VStr cat) subcat
  = Throw (assertionError "Itunes category is not a valid itunes category.").
Proof.
  intros H. unfold checkItunesCategory, andThen, assert_ok.
  rewrite assert_typeof. simpl. now rewrite H.
Qed.

(** What the [try]/[catch] around a validator does with its outcome. *)
Lemma caught_eq (body : M unit) (st : State) :
  try_catch body (fun err => handleError rt err false) st
  = match body st with
    | (st1, Ok _) => (st1, Ok tt)
    | (st1, Throw e) => (recordViolation rt e false st1, Ok tt)
    end.
Proof.
  unfold try_catch. destruct (body st) as [st1 [[]|e]]; [reflexivity|].
  apply handleError_eq.
Qed.

End AbsentValues.



(** C8 (defect).  The category checker does not raise a violation of its
    own on every input.  The look-up of the category text in the table also
    finds what the table object inherits; for such a name, [toString] for
    one, it yields a function, the category passes, and with a sub-category
    the call of [indexOf] on the function throws a type error.  The channel
    validator catches it and records the text of the engine as an
    always-fatal violation. *)
Theorem category_checker_throws_on_inherited_name :
  (forall rt cat name sub,
     ITUNES_CATEGORIES_get rt cat = VFunction name -> sub <> EmptyString ->
     checkItunesCategory rt (VStr cat) (VStr sub)
     = Throw (typeError "_.get(...).indexOf is not a function"))
  /\ ITUNES_CATEGORIES_get (exampleRuntime false None None None) "toString"
     = VFunction "toString"
  /\ checkItunesCategory (exampleRuntime false None None None)
       (VStr "toString") (VStr "Books")
     = Throw (typeError "_.get(...).indexOf is not a function")
  /\ checkItunesCategory (exampleRuntime false None None None)
       (VStr "toString") VNull
     = Ok tt
  /\ snd (checkChannel (exampleRuntime false None None None)
            (channelWithCategory "toString" "Books") initialState)
     = Ok tt
  /\ handled (fst (checkChannel (exampleRuntime false None None None)
                     (channelWithCategory "toString" "Books") initialState))
     = [(typeError "_.get(...).indexOf is not a function", false)]
  /\ errorLines (fst (checkChannel (exampleRuntime false None None None)
                        (channelWithCategory "toString" "Books")
                        initialState))
     = ["_.get(...).indexOf is not a function"].
Proof.
  split.
  { intros rt cat name sub Hfound Hsub.
    unfold checkItunesCategory, andThen, assert_ok.
    rewrite !assert_typeof. cbn [typeof str_of]. rewrite Hfound.
    destruct sub; [now elim Hsub|reflexivity]. }
  repeat split.
Qed.

(** ** Optional fields *)

Section OptionalFields.

Variable rt : Runtime.

(** In the channel an absent optional field is skipped. *)
Lemma checkOptionalField_absent (node : Value) (field : string)
    (validate : Validator) (st : State) :
  get node field VUndefined = VUndefined ->
  checkOptionalField rt node (field, validate) st = (st, Ok tt).
Proof. intros H. unfold checkOptionalField. now rewrite H. Qed.

(** In the channel a present optional field that its validator rejects is
    recorded as one always-fatal violation. *)
Lemma checkOptionalField_invalid (node : Value) (field : string)
    (validate : Validator) (st st1 : State) (e : Error) :
  strictEq (get node field VUndefined) VUndefined = false ->
  validate (get node field VNull) field st = (st1, Throw e) ->
  checkOptionalField rt node (field, validate) st
  = (recordViolation rt e false st1, Ok tt).
Proof.
  intros Hp Hv. unfold checkOptionalField. rewrite Hp, caught_eq.
  now rewrite Hv.
Qed.

(** The item validator reads the names of the optional rule table and never
    its validators. *)
Lemma checkEpisode_optional_names_only
    (required optional1 optional2 : list (string * Validator)) (item : Value)
    (seen : list Value * list Value) :
  map fst optional1 = map fst optional2 ->
  checkEpisode rt required optional1 item seen
  = checkEpisode rt required optional2 item seen.
Proof.
  intros H. destruct seen as [guids episodes].
  unfold checkEpisode, checkAdditionalTags. now rewrite H.
Qed.

End OptionalFields.

(** C1 (defect).  An item whose optional episode type is [teaser] and whose
    optional season number is the text [two] goes through the item validator
    without any violation, although the checkers that the optional item
    table pairs with these two fields reject the values: the item loop walks
    the required table only, and reads of the optional table nothing but its
    field names.  The claim has each such value produce one always-fatal
    violation, as the channel validator does for its optional table. *)
Theorem optional_item_fields_are_never_checked :
  (forall rt,
     checkEpisodes rt channelWithInvalidOptionalFields initialState
     = (initialState, Ok tt))
  /\ checkEpisodeType (VStr "teaser") "Episode 1: itunes:episodeType"
     = Throw (assertionError
                "Episode 1: itunes:episodeType must be 'full', 'trailer' or 'bonus'.")
  /\ checkNatural (VStr "two") "Episode 1: itunes:season"
     = Throw (assertionError "Episode 1: itunes:season must be a number.")
  /\ (forall rt required optional1 optional2 item seen,
        map fst optional1 = map fst optional2 ->
        checkEpisode rt required optional1 item seen
        = checkEpisode rt required optional2 item seen).
Proof.
  split.
  { intros rt.
    rewrite (checkEpisodes_iterable rt channelWithInvalidOptionalFields
               (itemList channelWithInvalidOptionalFields) initialState
               eq_refl).
    vm_compute; reflexivity. }
  split; [reflexivity|]. split; [reflexivity|].
  exact checkEpisode_optional_names_only.
Qed.

(** ** Unexpected tags *)

(** C6 (defect).  An item whose children are the required tags and
    [itunes:image] is reported with the strict-only violation that names
    [itunes:image] as an additional tag: the item validator compares the
    child tags with the full dotted names of its rule tables, and its
    structural tags do not list [itunes:image], whereas those of the channel
    validator do.  The claim has the item yield no such violation. *)
Theorem item_image_is_reported_as_additional_tag :
  (forall rt,
     handled (fst (checkEpisodes rt channelWithItemImage initialState))
     = [(newError "Episode 1: Has additional tags: itunes:image", true)])
  /\ (forall rt itunesType,
        existsb (String.eqb "itunes:image") (explainedItemTags rt itunesType)
        = false)
  /\ (forall rt,
        existsb (String.eqb "itunes:image") (explainedChannelTags rt) = true).
Proof.
  split; [|split].
  - intros rt.
    rewrite (checkEpisodes_iterable rt channelWithItemImage
               (itemList channelWithItemImage) initialState eq_refl).
    destruct rt as [strict ci nodeEnv base head moment email iso cats emit].
    destruct strict; vm_compute; reflexivity.
  - intros rt itunesType.
    unfold explainedItemTags, REQUIRED_EPISODE_ATTRS, OPTIONAL_EPISODE_ATTRS.
    destruct (strictEq itunesType (VStr "serial")); reflexivity.
  - intros rt. reflexivity.
Qed.

(** ** The reachability check in a pipeline *)

Lemma skipInPipeline_eq (rt : Runtime) (s : string) :
  skipInPipeline rt (VStr s)
  = inPipeline rt && (nodeEnvIsTest rt || startsWith s (publicUrlBase rt)).
Proof.
  unfold skipInPipeline, inPipeline, nodeEnvIsTest, publicUrlBase.
  now destruct (env_CI rt), (env_NODE_ENV rt), (env_PUBLIC_URL_BASE rt).
Qed.

(** Once the request is sent, nothing but the request is added to the
    state. *)
Lemma reachability_check_sends_request (rt : Runtime) (s f : string)
    (ctypes : list string) (st : State) :
  let body :=
    (res <- head_request rt s ;;
     lift (assert_equal (res_status res) (VNum 200)
             (f ++ " responded with " ++ toString (res_status res)
              ++ " when trying to connect.")) ;;
     lift (assert_equal (res_accept_ranges res) (VStr "bytes")
             (f ++ " has not field 'accept-ranges' in header set to 'bytes'.")) ;;
     if (Z.of_nat (List.length ctypes) >? 0) then
       lift (assert_notEqual
               (VNum (arr_indexOf (map VStr ctypes) (res_content_type res)))
               (VNum (-1))
               (Some (f ++ " has an unexpected content type "
                      ++ toString (res_content_type res) ++ ".")))
     else ret tt) in
  forall handler : Error -> outcome unit,
    fst (try_catch body (fun err => lift (handler err)) st)
    = mkState (console st) (exitCode st) (handled st)
        (requests st ++ [s]).
Proof.
  intros body handler. unfold body, try_catch, bind, head_request, lift, ret.
  destruct (rq_head rt s) as [res|status]; [|reflexivity].
  destruct (assert_equal (res_status res) _ _); [|reflexivity].
  destruct (assert_equal (res_accept_ranges res) _ _); [|reflexivity].
  destruct (_ >? 0); [|reflexivity].
  now destruct (assert_notEqual _ _ _).
Qed.

(** C7 (amended).  In a pipeline ([CI] set and not empty), for a URL that
    passes the shape check: when [NODE_ENV] is [test], or the URL starts
    with the public base, the check is bypassed, a note is written and no
    request is sent; otherwise the request is sent and no note is
    written. *)
Theorem reachability_bypass_in_pipeline (rt : Runtime) (s f : string)
    (exts ctypes : list string) (st : State) :
  inPipeline rt = true ->
  checkUrlFormat (VStr s) f exts = Ok tt ->
  if nodeEnvIsTest rt || startsWith s (publicUrlBase rt) then
    checkUrlExists rt (VStr s) f exts ctypes st
    = (mkState
         (console st
          ++ [(StdWarn, "Skipping checking of URL " ++ s ++ " in ci pipeline")])
         (exitCode st) (handled st) (requests st),
       Ok tt)
  else
    fst (checkUrlExists rt (VStr s) f exts ctypes st)
    = mkState (console st) (exitCode st) (handled st) (requests st ++ [s]).
Proof.
  intros Hci Hfmt. unfold checkUrlExists.
  unfold bind at 1. unfold lift at 1. rewrite Hfmt.
  rewrite skipInPipeline_eq, Hci. cbn [andb].
  destruct (nodeEnvIsTest rt || startsWith s (publicUrlBase rt)).
  - reflexivity.
  - apply (reachability_check_sends_request rt s f ctypes st).
Qed.

Lemma reachability_bypass_in_pipeline_witness :
  checkUrlExists pipelineRuntime (VStr "https://podcast.example/cover.jpg")
    "itunes:image.@_href" ["jpg"; "jpeg"; "png"]
    ["image/jpg"; "image/jpeg"; "image/png"] initialState
  = (mkState
       [(StdWarn,
         "Skipping checking of URL https://podcast.example/cover.jpg in ci pipeline")]
       0 [] [],
     Ok tt)
  /\ fst (checkUrlExists pipelineRuntime
            (VStr "https://cdn.example/cover.jpg")
            "itunes:image.@_href" ["jpg"; "jpeg"; "png"]
            ["image/jpg"; "image/jpeg"; "image/png"] initialState)
     = mkState [] 0 [] ["https://cdn.example/cover.jpg"].
Proof.
  split.
  - exact (reachability_bypass_in_pipeline pipelineRuntime
             "https://podcast.example/cover.jpg" "itunes:image.@_href"
             ["jpg"; "jpeg"; "png"] ["image/jpg"; "image/jpeg"; "image/png"]
             initialState eq_refl eq_refl).
  - exact (reachability_bypass_in_pipeline pipelineRuntime
             "https://cdn.example/cover.jpg" "itunes:image.@_href"
             ["jpg"; "jpeg"; "png"] ["image/jpg"; "image/jpeg"; "image/png"]
             initialState eq_refl eq_refl).
Defined.

(** In a pipeline under [NODE_ENV=test] a URL that does not start with the
    public base is bypassed all the same: the note is written and no
    request is sent. *)
Lemma reachability_bypass_counterexample :
  inPipeline testPipelineRuntime = true
  /\ startsWith "https://cdn.example/cover.jpg"
       (publicUrlBase testPipelineRuntime) = false
  /\ checkUrlExists testPipelineRuntime (VStr "https://cdn.example/cover.jpg")
       "itunes:image.@_href" ["jpg"; "jpeg"; "png"]
       ["image/jpg"; "image/jpeg"; "image/png"] initialState
     = (mkState
          [(StdWarn,
            "Skipping checking of URL https://cdn.example/cover.jpg in ci pipeline")]
          0 [] [],
        Ok tt).
Proof. repeat split. Qed.

(** ** Duplicate identifiers *)

Lemma strictEq_eq (a b : Value) : strictEq a b = true -> a = b.
Proof.
  destruct a, b; simpl; try discriminate; try reflexivity; intros H.
  - f_equal. now apply Bool.eqb_prop.
  - f_equal. now apply Z.eqb_eq.
  - f_equal. now apply String.eqb_eq.
  - f_equal. now apply String.eqb_eq.
Qed.

Lemma set_has_set_add (set : list Value) (x v : Value) :
  set_has (set_add set x) v = set_has set v || strictEq x v.
Proof.
  unfold set_add. destruct (set_has set x) eqn:Hx.
  - destruct (strictEq x v) eqn:Hv; [|now rewrite orb_false_r].
    apply strictEq_eq in Hv. subst v. now rewrite Hx.
  - unfold set_has. rewrite existsb_app. simpl. now rewrite orb_false_r.
Qed.

Lemma set_has_noteSeen (set : list Value) (x v : Value) :
  truthy v = true ->
  set_has (noteSeen set x) v = set_has set v || strictEq x v.
Proof.
  intros Hv. unfold noteSeen. destruct (truthy x) eqn:Hx.
  - apply set_has_set_add.
  - destruct (strictEq x v) eqn:E; [|now rewrite orb_false_r].
    apply strictEq_eq in E. congruence.
Qed.

Section Duplicates.

Variable rt : Runtime.

Lemma duplicates_recordViolation (err : Error) (isStrict : bool) (st : State) :
  duplicates (recordViolation rt err isStrict st)
  = (duplicates st
     ++ if isDuplicateViolation (err, isStrict) then [(err, isStrict)] else [])%list.
Proof.
  unfold duplicates. rewrite handled_recordViolation, filter_app. simpl.
  now destruct (isDuplicateViolation (err, isStrict)).
Qed.

Lemma duplicates_recordViolation_other (err : Error) (isStrict : bool)
    (st : State) :
  isDuplicateViolation (err, isStrict) = false ->
  duplicates (recordViolation rt err isStrict st) = duplicates st.
Proof.
  intros H. rewrite duplicates_recordViolation, H. apply app_nil_r.
Qed.

Lemma not_plain_not_duplicate (e : Error) (isStrict : bool) :
  err_name e <> PlainError -> isDuplicateViolation (e, isStrict) = false.
Proof.
  unfold isDuplicateViolation. simpl. now destruct (err_name e).
Qed.

Lemma pureValidator_quiet (c : Value -> string -> outcome unit) :
  assertionOnly c -> quietValidator (pureValidator c).
Proof.
  intros Hc s f st. split; [reflexivity|].
  unfold pureValidator, lift. simpl. intros e He.
  rewrite (Hc _ _ _ He). discriminate.
Qed.

Lemma episodeFieldName_throws (item : Value) (field : string) (e : Error) :
  episodeFieldName item field = Throw e -> err_name e = TypeError.
Proof.
  unfold episodeFieldName, readMember, andThen.
  destruct (isNullish item); [|discriminate].
  now intros [= <-].
Qed.

(** A required field of an item adds no duplicate violation. *)
Lemma checkRequiredField_duplicates (item : Value) (entry : string * Validator)
    (st : State) :
  quietValidator (snd entry) ->
  duplicates (fst (checkRequiredField rt item (episodeFieldName item) entry st))
  = duplicates st.
Proof.
  destruct entry as [field validate]. simpl. intros Hq.
  unfold checkRequiredField. rewrite caught_eq. unfold bind, lift.
  destruct (episodeFieldName item field) as [f|e] eqn:Hf.
  - destruct (Hq (get item field VNull) f st) as [Hst Hthrow].
    destruct (validate (get item field VNull) f st) as [st1 [[]|e]];
      simpl in *; subst st1; [reflexivity|].
    apply duplicates_recordViolation_other, not_plain_not_duplicate.
    now apply Hthrow.
  - simpl. apply duplicates_recordViolation_other, not_plain_not_duplicate.
    rewrite (episodeFieldName_throws _ _ _ Hf). discriminate.
Qed.

Lemma required_loop_duplicates (item : Value)
    (required : list (string * Validator)) (st : State) :
  Forall (fun entry => quietValidator (snd entry)) required ->
  duplicates
    (fst (forEach required
            (checkRequiredField rt item (episodeFieldName item)) st))
  = duplicates st.
Proof.
  intros H. revert st. induction H as [|entry required He _ IH]; intros st;
    simpl; [reflexivity|].
  unfold bind.
  pose proof (checkRequiredField_duplicates item entry st He) as H1.
  pose proof (checkRequiredField_completes rt item (episodeFieldName item)
                entry st) as H2.
  destruct (checkRequiredField rt item (episodeFieldName item) entry st)
    as [st1 [[]|e]]; simpl in *; [|discriminate].
  now rewrite IH.
Qed.

Lemma checkAdditionalTags_duplicates
    (required optional : list (string * Validator)) (item : Value)
    (st : State) :
  duplicates (fst (checkAdditionalTags rt required optional item st))
  = duplicates st.
Proof.
  unfold checkAdditionalTags, objectKeys, readMember, bind, lift.
  destruct (isNullish item); [reflexivity|].
  destruct (_ >? 0); [|reflexivity].
  rewrite handleError_eq. now apply duplicates_recordViolation_other.
Qed.

(** One turn of the item loop: the sets after it, and the duplicate
    violations it adds. *)
Lemma checkEpisode_duplicates (required optional : list (string * Validator))
    (item : Value) (guids episodes : list Value) (st : State) :
  Forall (fun entry => quietValidator (snd entry)) required ->
  isNullish item = false ->
  snd (checkEpisode rt required optional item (guids, episodes) st)
  = Ok (noteSeen guids (guidOf item), noteSeen episodes (episodeOf item))
  /\ duplicates
       (fst (checkEpisode rt required optional item (guids, episodes) st))
     = (duplicates st
        ++ (if truthy (guidOf item) && set_has guids (guidOf item)
            then [(duplicateGuidError item, false)] else [])
        ++ (if truthy (episodeOf item) && set_has episodes (episodeOf item)
            then [(duplicateEpisodeError item, false)] else []))%list.
Proof.
  intros Hreq Hitem.
  assert (Hrest :
    forall (st2 : State) (g e : list Value),
      let m := (forEach required
                  (checkRequiredField rt item (episodeFieldName item)) ;;
                checkAdditionalTags rt required optional item ;;
                ret (g, e)) in
      snd (m st2) = Ok (g, e) /\ duplicates (fst (m st2)) = duplicates st2).
  { intros st2 g e m. unfold m, bind.
    pose proof (required_loop_duplicates item required st2 Hreq) as H1.
    pose proof (forEach_completes required
                  (checkRequiredField rt item (episodeFieldName item))
                  (fun x s => checkRequiredField_completes rt item _ x s) st2)
      as H2.
    destruct (forEach required _ st2) as [st3 [[]|e3]]; simpl in *;
      [|discriminate].
    pose proof (checkAdditionalTags_duplicates required optional item st3)
      as H3.
    pose proof (checkAdditionalTags_completes rt required optional item st3
                  Hitem) as H4.
    destruct (checkAdditionalTags rt required optional item st3)
      as [st4 [[]|e4]]; simpl in *; [|discriminate].
    split; [reflexivity|congruence]. }
  set (st1 := if truthy (guidOf item) && set_has guids (guidOf item)
              then recordViolation rt (duplicateGuidError item) false st
              else st).
  set (st2 := if truthy (episodeOf item) && set_has episodes (episodeOf item)
              then recordViolation rt (duplicateEpisodeError item) false st1
              else st1).
  assert (Heq :
    checkEpisode rt required optional item (guids, episodes) st
    = (forEach required (checkRequiredField rt item (episodeFieldName item)) ;;
       checkAdditionalTags rt required optional item ;;
       ret (noteSeen guids (guidOf item), noteSeen episodes (episodeOf item)))
        st2).
  { unfold checkEpisode, noteSeen, st2, st1.
    unfold bind at 1. rewrite checkDuplicateGuid_eq.
    destruct (truthy (guidOf item));
      [destruct (set_has guids (guidOf item))|]; cbn [andb]; cbv beta iota;
      (unfold bind at 1; rewrite checkDuplicateEpisode_eq;
       destruct (truthy (episodeOf item));
       [destruct (set_has episodes (episodeOf item))|]; reflexivity). }
  rewrite Heq. split; [apply Hrest|].
  rewrite (proj2 (Hrest _ _ _)). unfold st2, st1.
  destruct (truthy (guidOf item) && set_has guids (guidOf item));
    destruct (truthy (episodeOf item) && set_has episodes (episodeOf item));
    rewrite ?duplicates_recordViolation; simpl;
    rewrite ?app_nil_r, <- ?app_assoc; reflexivity.
Qed.

End Duplicates.

(** *** The checkers of the required item table *)

Ltac assertion_only :=
  let H := fresh "H" in
  intros ? ? ? H;
  repeat match type of H with
         | andThen ?a _ = Throw _ => destruct a as [[]|?] eqn:?; simpl in H
         | (if ?c then _ else _) = Throw _ => destruct c; simpl in H
         | _ => progress unfold assert_equal, assert_notEqual, assert_match,
                  assert_doesNotMatch in *
         end;
  repeat match goal with
         | E : (if ?c then _ else _) = Throw _ |- _ => destruct c
         end;
  try discriminate;
  repeat match goal with
         | E : Throw _ = Throw _ |- _ => injection E as E; subst
         | E : Ok _ = Throw _ |- _ => discriminate E
         end;
  try reflexivity.

Lemma checkDefaultString_assertionOnly : assertionOnly checkDefaultString.
Proof. unfold assertionOnly, checkDefaultString. assertion_only. Qed.

Lemma checkNumberString_assertionOnly : assertionOnly checkNumberString.
Proof. unfold assertionOnly, checkNumberString. assertion_only. Qed.

Lemma checkAudioType_assertionOnly : assertionOnly checkAudioType.
Proof. unfold assertionOnly, checkAudioType. assertion_only. Qed.

Lemma checkNatural_assertionOnly : assertionOnly checkNatural.
Proof. unfold assertionOnly, checkNatural. assertion_only. Qed.

Lemma checkUrlFormat_assertionOnly :
  assertionOnly (fun s f => checkUrlFormat s f ["mp3"; "m4a"]).
Proof. unfold assertionOnly, checkUrlFormat. assertion_only. Qed.

Lemma required_episode_table_quiet (itunesType : Value) :
  Forall (fun entry => quietValidator (snd entry))
    (REQUIRED_EPISODE_ATTRS itunesType).
Proof.
  unfold REQUIRED_EPISODE_ATTRS, audioUrlValidator.
  apply Forall_app. split.
  - repeat apply Forall_cons; try apply Forall_nil; simpl;
      apply pureValidator_quiet;
      auto using checkDefaultString_assertionOnly,
        checkNumberString_assertionOnly, checkAudioType_assertionOnly,
        checkUrlFormat_assertionOnly.
  - destruct (strictEq itunesType (VStr "serial")); [|apply Forall_nil].
    apply Forall_cons; [|apply Forall_nil].
    simpl. apply pureValidator_quiet, checkNatural_assertionOnly.
Qed.

Section DuplicateReport.

Variable rt : Runtime.

Lemma episodesLoop_duplicates (required optional : list (string * Validator))
    (items pre guids episodes : list Value) (st : State) :
  Forall (fun entry => quietValidator (snd entry)) required ->
  noNullish items ->
  (forall v, truthy v = true ->
     set_has guids v = existsb (fun earlier => strictEq (guidOf earlier) v) pre) ->
  (forall v, truthy v = true ->
     set_has episodes v
     = existsb (fun earlier => strictEq (episodeOf earlier) v) pre) ->
  duplicates
    (fst (episodesLoop rt required optional items (guids, episodes) st))
  = (duplicates st ++ spec_report spec_duplicateBoth pre items)%list.
Proof.
  intros Hreq Hitems. revert pre guids episodes st.
  induction Hitems as [|item rest Hitem _ IH];
    intros pre guids episodes st Hg He; cbn [episodesLoop spec_report].
  - symmetry. apply app_nil_r.
  - unfold bind at 1.
    destruct (checkEpisode_duplicates rt required optional item guids episodes
                st Hreq Hitem) as [Hs Hd].
    destruct (checkEpisode rt required optional item (guids, episodes) st)
      as [st1 [seen'|e]]; simpl in Hs, Hd; [|discriminate].
    injection Hs as ->. cbv beta iota.
    rewrite (IH (pre ++ [item])%list).
    + rewrite Hd.
      unfold spec_duplicateBoth, spec_duplicateGuid, spec_duplicateEpisode,
        sameGuidBefore, sameEpisodeBefore.
      rewrite <- !app_assoc. f_equal. f_equal; [|f_equal].
      * destruct (truthy (guidOf item)) eqn:Ht; [|reflexivity].
        now rewrite (Hg _ Ht).
      * destruct (truthy (episodeOf item)) eqn:Ht; [|reflexivity].
        now rewrite (He _ Ht).
    + intros v Hv. rewrite (set_has_noteSeen _ _ _ Hv), (Hg _ Hv).
      rewrite existsb_app. simpl. now rewrite orb_false_r.
    + intros v Hv. rewrite (set_has_noteSeen _ _ _ Hv), (He _ Hv).
      rewrite existsb_app. simpl. now rewrite orb_false_r.
Qed.

Lemma readMember_throws (object : Value) (key : string) (e : Error) :
  readMember object key = Throw e -> err_name e = TypeError.
Proof.
  unfold readMember. destruct (isNullish object); [|discriminate].
  now intros [= <-].
Qed.

(** The duplicate violations of the item validator are those that the rule
    of the first occurrence gives, item after item. *)
Lemma checkEpisodes_duplicates (channel : Value) (items : list Value)
    (st : State) :
  iterate (itemsOf channel) = Ok items -> noNullish items ->
  duplicates (fst (checkEpisodes rt channel st))
  = (duplicates st ++ spec_report spec_duplicateBoth [] items)%list.
Proof.
  intros Hit Hn. unfold checkEpisodes.
  unfold bind at 1. rewrite caught_eq.
  set (count := len <- lift (readMember (itemsOf channel) "length") ;;
                lift (checkNatural len "Episode count")).
  assert (Hcount : duplicates
                     (fst (match count st with
                           | (st1, Ok _) => (st1, Ok tt)
                           | (st1, Throw e) =>
                               (recordViolation rt e false st1, Ok tt)
                           end)) = duplicates st
                   /\ snd (match count st with
                           | (st1, Ok _) => (st1, Ok tt)
                           | (st1, Throw e) =>
                               (recordViolation rt e false st1, Ok tt)
                           end) = Ok tt).
  { unfold count, bind, lift.
    destruct (readMember (itemsOf channel) "length") as [len|e] eqn:Hr.
    - destruct (checkNatural len "Episode count") as [[]|e] eqn:Hc;
        simpl; [now split|]. split; [|reflexivity].
      apply duplicates_recordViolation_other, not_plain_not_duplicate.
      rewrite (checkNatural_assertionOnly _ _ _ Hc). discriminate.
    - simpl. split; [|reflexivity].
      apply duplicates_recordViolation_other, not_plain_not_duplicate.
      rewrite (readMember_throws _ _ _ Hr). discriminate. }
  destruct Hcount as [Hd Hs].
  destruct (match count st with
            | (st1, Ok _) => (st1, Ok tt)
            | (st1, Throw e) => (recordViolation rt e false st1, Ok tt)
            end) as [st1 [[]|e]]; simpl in Hd, Hs; [|discriminate].
  rewrite (forOf_iterate rt _ _ Hit). unfold bind, lift. rewrite <- Hd.
  apply episodesLoop_duplicates; auto using required_episode_table_quiet.
Qed.

End DuplicateReport.

Lemma spec_duplicateGuid_falsy (pre : list Value) (item : Value) :
  truthy (guidOf item) = false -> spec_duplicateGuid pre item = [].
Proof. intros H. unfold spec_duplicateGuid. now rewrite H. Qed.

Lemma spec_duplicateEpisode_falsy (pre : list Value) (item : Value) :
  truthy (episodeOf item) = false -> spec_duplicateEpisode pre item = [].
Proof. intros H. unfold spec_duplicateEpisode. now rewrite H. Qed.

Lemma spec_report_without_guids (pre items : list Value) :
  Forall (fun item => truthy (guidOf item) = false) items ->
  spec_report spec_duplicateBoth pre items
  = spec_report spec_duplicateEpisode pre items.
Proof.
  intros H. revert pre. induction H as [|item items Hi _ IH]; intros pre;
    simpl; [reflexivity|].
  unfold spec_duplicateBoth. now rewrite (spec_duplicateGuid_falsy _ _ Hi), IH.
Qed.

Lemma spec_report_without_episodes (pre items : list Value) :
  Forall (fun item => truthy (episodeOf item) = false) items ->
  spec_report spec_duplicateEpisode pre items = [].
Proof.
  intros H. revert pre. induction H as [|item items Hi _ IH]; intros pre;
    simpl; [reflexivity|].
  now rewrite (spec_duplicateEpisode_falsy _ _ Hi), IH.
Qed.

Lemma get_default (object : Value) (path : string) (defaultValue : Value) :
  get object path defaultValue
  = orDefault (get object path VUndefined) defaultValue.
Proof.
  unfold get, orDefault.
  now destruct (if isNullish object then VUndefined
                else baseGet object (castPath path object)).
Qed.







(** C10.  An item whose guid text is absent, empty or otherwise falsy goes
    through the guid block without any effect: nothing is recorded and the
    set of guids is unchanged; likewise for a falsy episode index.  Hence a
    collection whose items all lack a guid gets duplicate violations for
    episode indexes only, and none at all when the episode indexes are
    falsy too. *)
Theorem falsy_identifiers_take_no_part_in_duplicate_detection (rt : Runtime) :
  (forall item guids st,
     truthy (guidOf item) = false ->
     checkDuplicateGuid rt item guids st = (st, Ok guids))
  /\ (forall item episodes st,
        truthy (episodeOf item) = false ->
        checkDuplicateEpisode rt item episodes st = (st, Ok episodes))
  /\ (forall item,
        get item "guid.#text" VUndefined = VUndefined
        \/ get item "guid.#text" VUndefined = VStr EmptyString ->
        truthy (guidOf item) = false)
  /\ (forall item,
        truthy (get item "itunes:episode" VUndefined) = false ->
        truthy (episodeOf item) = false)
  /\ (forall channel items st,
        iterate (itemsOf channel) = Ok items -> noNullish items ->
        Forall (fun item => truthy (guidOf item) = false) items ->
        duplicates (fst (checkEpisodes rt channel st))
        = (duplicates st ++ spec_report spec_duplicateEpisode [] items)%list)
  /\ (forall channel items st,
        iterate (itemsOf channel) = Ok items -> noNullish items ->
        Forall (fun item => truthy (guidOf item) = false) items ->
        Forall (fun item => truthy (episodeOf item) = false) items ->
        duplicates (fst (checkEpisodes rt channel st)) = duplicates st).
Proof.
  split; [|split; [|split; [|split; [|split]]]].
  - intros item guids st H. now rewrite checkDuplicateGuid_eq, H.
  - intros item episodes st H. now rewrite checkDuplicateEpisode_eq, H.
  - intros item H. unfold guidOf. rewrite get_default.
    now destruct H as [-> | ->].
  - intros item H. unfold episodeOf. rewrite get_default.
    now destruct (get item "itunes:episode" VUndefined).
  - intros channel items st Hit Hn Hg.
    rewrite (checkEpisodes_duplicates rt channel items st Hit Hn).
    now rewrite (spec_report_without_guids [] items Hg).
  - intros channel items st Hit Hn Hg He.
    rewrite (checkEpisodes_duplicates rt channel items st Hit Hn).
    rewrite (spec_report_without_guids [] items Hg).
    rewrite (spec_report_without_episodes [] items He). apply app_nil_r.
Qed.

(** Three items without a guid text and without an episode index: no
    duplicate violation. *)
Lemma falsy_identifiers_take_no_part_in_duplicate_detection_witness :
  map guidOf (itemList channelWithoutGuids)
  = [VStr EmptyString; VStr EmptyString; VStr EmptyString]
  /\ duplicates
       (fst (checkEpisodes (exampleRuntime false None None None)
               channelWithoutGuids initialState))
     = [].
Proof.
  split; [reflexivity|].
  apply (proj2 (proj2 (proj2 (proj2 (proj2
           (falsy_identifiers_take_no_part_in_duplicate_detection
              (exampleRuntime false None None None))))))
           channelWithoutGuids (itemList channelWithoutGuids) initialState
           eq_refl);
    repeat constructor.
Defined.

(** * Further properties of the validator *)

(** ** Single checkers *)

Lemma substring_0_min (s : string) (n : nat) :
  substring 0 (Nat.min n (String.length s)) s = substring 0 n s.
Proof.
  revert n. induction s as [|c s IH]; intros [|n]; simpl; try reflexivity.
  now rewrite IH.
Qed.

Lemma slice_from_start (s : string) (n : nat) :
  slice s 0 (Z.of_nat n) = substring 0 n s.
Proof.
  unfold slice, strlen.
  replace (0 <? 0) with false by reflexivity.
  replace (Z.of_nat n <? 0) with false by (symmetry; apply Z.ltb_ge; lia).
  rewrite <- (substring_0_min s n). f_equal; lia.
Qed.

Lemma slice_is_prefix (s p : string) :
  (slice s 0 (Z.of_nat (String.length p)) =? p)%string = startsWith s p.
Proof.
  rewrite slice_from_start. unfold startsWith.
  destruct (prefix p s) eqn:Hp.
  - apply String.eqb_eq. now apply prefix_correct.
  - apply String.eqb_neq. intros H. apply prefix_correct in H. congruence.
Qed.

Lemma startsWith_not_empty (s p : string) :
  p <> EmptyString -> startsWith s p = true -> (strlen s >? 0) = true.
Proof.
  unfold startsWith, strlen. destruct p as [|a p]; [congruence|].
  destruct s as [|b s]; simpl; [discriminate|]. intros _ _.
  apply Z.gtb_lt. lia.
Qed.

Lemma indexOfFrom_existsb (l : list Value) (x : Value) (i : Z) :
  0 <= i ->
  (indexOfFrom i l x =? -1) = negb (existsb (fun y => strictEq y x) l).
Proof.
  revert i. induction l as [|y l IH]; intros i Hi; simpl; [reflexivity|].
  destruct (strictEq y x); simpl.
  - apply Z.eqb_neq. lia.
  - apply IH. lia.
Qed.

Lemma arr_indexOf_existsb (l : list Value) (x : Value) :
  (arr_indexOf l x =? -1) = negb (existsb (fun y => strictEq y x) l).
Proof. apply indexOfFrom_existsb. lia. Qed.

Lemma existsb_mapped {X Y : Type} (f : Y -> bool) (g : X -> Y) (l : list X) :
  existsb f (map g l) = existsb (fun x => f (g x)) l.
Proof. induction l as [|x l IH]; simpl; [reflexivity|]. now rewrite IH. Qed.

Lemma assert_member (l : list Value) (x : Value) (msg : string) :
  assert_notEqual (VNum (arr_indexOf l x)) (VNum (-1)) (Some msg)
  = if existsb (fun y => strictEq y x) l then Ok tt
    else Throw (assertionError msg).
Proof.
  unfold assert_notEqual. rewrite looseEq_num, arr_indexOf_existsb.
  now destruct (existsb _ l).
Qed.

(** X1.  With extensions that hold no syntax character of a regular
    expression (those of the validator are letters and digits), the URL shape
    checker accepts a string exactly when it starts with [https://] and, if
    extensions are given, ends with one of them as a bare suffix; the scheme
    alone is accepted, and no dot is required before the extension. *)
Theorem checkUrlFormat_accepts (s fieldName : string) (exts : list string) :
  literalExtensions exts = true ->
  isOk (checkUrlFormat (VStr s) fieldName exts)
  = startsWith s "https://"
    && match exts with
       | [] => true
       | _ :: _ => existsb (endsWith s) exts
       end.
Proof.
  intros _.
  unfold checkUrlFormat, andThen. rewrite assert_typeof, assert_bool.
  cbn [typeof str_of]. cbn [String.eqb Ascii.eqb Bool.eqb].
  unfold assert_equal at 1. rewrite looseEq_str.
  change 8 with (Z.of_nat (String.length "https://")).
  rewrite slice_is_prefix.
  destruct (startsWith s "https://") eqn:Hp.
  - rewrite (startsWith_not_empty s "https://" ltac:(discriminate) Hp).
    cbn [Bool.eqb andb].
    destruct exts as [|e exts]; [reflexivity|].
    unfold assert_match, re_extensions.
    replace (Z.of_nat (List.length (e :: exts)) >? 0) with true
      by (symmetry; apply Z.gtb_lt; simpl List.length; lia).
    now destruct (existsb (endsWith s) (e :: exts)).
  - now destruct (Bool.eqb (strlen s >? 0) true).
Qed.

(** The extensions of the audio files: no dot is asked for before the
    extension, and the letter case counts. *)
Lemma checkUrlFormat_accepts_witness :
  isOk (checkUrlFormat (VStr "https://cdn.example/audio/ep.mp3")
          "enclosure.@_url" ["mp3"; "m4a"]) = true
  /\ isOk (checkUrlFormat (VStr "https://cdn.example/audio/temp3")
             "enclosure.@_url" ["mp3"; "m4a"]) = true
  /\ isOk (checkUrlFormat (VStr "https://cdn.example/audio/ep.MP3")
             "enclosure.@_url" ["mp3"; "m4a"]) = false.
Proof.
  split; [|split];
    rewrite (checkUrlFormat_accepts _ "enclosure.@_url" ["mp3"; "m4a"]
               eq_refl);
    reflexivity.
Defined.

Section CheckerOutcomes.

Variable rt : Runtime.

Lemma head_request_eq (url : string) (st : State) :
  head_request rt url st
  = (mkState (console st) (exitCode st) (handled st) (requests st ++ [url]),
     match rq_head rt url with
     | inl res => Ok res
     | inr status => Throw (mkError PlainError EmptyString status)
     end).
Proof. unfold head_request. now destruct (rq_head rt url). Qed.

Lemma assert_content_type (ctypes : list string) (v : Value) (msg : string) :
  assert_notEqual (VNum (arr_indexOf (map VStr ctypes) v)) (VNum (-1))
    (Some msg)
  = if existsb (fun t => strictEq (VStr t) v) ctypes then Ok tt
    else Throw (assertionError msg).
Proof.
  rewrite assert_member. now rewrite existsb_mapped.
Qed.

(** X2.  The reachability checker applies the shape check first: a value
    that fails it is reported with the shape violation, and neither a note
    nor a request is made.  For a URL that passes and is not bypassed, the
    check passes exactly when the request resolves with status 200, the
    header [accept-ranges: bytes] and, if content types are given, one of
    them, or is rejected with an error of status 200; every failure is
    reported as [responded with <status>], where the status reads
    [undefined] whenever the request resolved. *)
Theorem checkUrlExists_outcome (s : Value) (f : string)
    (exts ctypes : list string) (st : State) :
  (forall e, checkUrlFormat s f exts = Throw e ->
     checkUrlExists rt s f exts ctypes st = (st, Throw e))
  /\ (checkUrlFormat s f exts = Ok tt -> skipInPipeline rt s = false ->
      snd (checkUrlExists rt s f exts ctypes st)
      = match reachabilityVerdict rt (str_of s) ctypes with
        | None => Ok tt
        | Some status =>
            Throw (assertionError
                     (f ++ " responded with " ++ toString status
                      ++ " when trying to connect."))
        end).
Proof.
  split.
  - intros e He. unfold checkUrlExists, bind, lift. now rewrite He.
  - intros Hfmt Hskip. unfold checkUrlExists.
    unfold bind at 1. unfold lift at 1. rewrite Hfmt, Hskip.
    unfold try_catch, bind at 1. rewrite head_request_eq.
    unfold reachabilityVerdict.
    destruct (rq_head rt (str_of s)) as [res|status].
    + unfold bind, lift, ret, assert_equal.
      destruct (looseEq (res_status res) (VNum 200)); [|reflexivity].
      destruct (looseEq (res_accept_ranges res) (VStr "bytes"));
        [|reflexivity].
      cbn [andb]. destruct ctypes as [|t ctypes]; [reflexivity|].
      replace (Z.of_nat (List.length (t :: ctypes)) >? 0) with true
        by (symmetry; apply Z.gtb_lt; simpl List.length; lia).
      rewrite assert_content_type.
      now destruct (existsb _ (t :: ctypes)).
    + unfold lift, assert_equal. cbn [err_status].
      now destruct (looseEq status (VNum 200)).
Qed.

(** X3.  The language checker accepts a string exactly when it is two
    lower-case letters, alone or followed by a hyphen and two letters, and
    the two leading letters are a listed code; the region is not looked
    up. *)
Theorem checkLanguage_accepts (s fieldName : string) :
  isOk (checkLanguage rt (VStr s) fieldName)
  = re_language s && listedLanguage rt s.
Proof.
  unfold checkLanguage, andThen, listedLanguage.
  rewrite assert_typeof, assert_bool, assert_member.
  cbn [typeof str_of]. cbn [String.eqb Ascii.eqb Bool.eqb].
  change 2 with (Z.of_nat 2). rewrite slice_from_start.
  unfold assert_match.
  destruct (re_language s) eqn:Hre.
  - replace (strlen s >? 0) with true.
    + cbn [Bool.eqb]. now destruct (existsb _ (ISO_CODES rt)).
    + symmetry. apply Z.gtb_lt. unfold strlen.
      destruct s; [discriminate|simpl; lia].
  - now destruct (Bool.eqb (strlen s >? 0) true).
Qed.

Lemma truthy_orDefault_null (v : Value) :
  truthy (orDefault v VNull) = truthy v.
Proof. now destruct v. Qed.

Lemma orDefault_truthy (v defaultValue : Value) :
  truthy v = true -> orDefault v defaultValue = v.
Proof. now destruct v. Qed.

(** The category checker once the category is a string and the look-up is
    truthy. *)
Lemma checkItunesCategory_found (cat : string) (subcat : Value) :
  truthy (ITUNES_CATEGORIES_get rt cat) = true ->
  checkItunesCategory rt (VStr cat) subcat
  = if truthy subcat then
      assert_equal (VStr (typeof subcat)) (VStr "string")
        "Itunes subcategory must be a string." >>
      andThen (call_indexOf (ITUNES_CATEGORIES_get rt cat) subcat)
        (fun idx =>
           assert_notEqual idx (VNum (-1))
             (Some "Itunes subcategory is not valid."))
    else Ok tt.
Proof.
  intros Hf. unfold checkItunesCategory, andThen at 1 2, assert_ok.
  rewrite assert_typeof. cbn [typeof str_of]. cbn [String.eqb Ascii.eqb].
  now rewrite truthy_orDefault_null, Hf, (orDefault_truthy _ _ Hf).
Qed.

(** X4.  The category checker decides on what the look-up of the category
    text in the table yields, which may be an entry of the table but also a
    member that the table object inherits.  A falsy look-up rejects the
    category.  A truthy one accepts it when no sub-category is given,
    whatever was found.  With a sub-category that is truthy: one that is not
    a string is rejected; against a list the pair is accepted exactly when
    the sub-category is an element; against a text, exactly when it occurs
    in the text; against anything else (a function, an object, a number) the
    checker throws a type error, not a violation of its own. *)
Theorem checkItunesCategory_accepts (cat : string) (subcat : Value) :
  (truthy (ITUNES_CATEGORIES_get rt cat) = false ->
   checkItunesCategory rt (VStr cat) subcat
   = Throw (assertionError "Itunes category is not a valid itunes category."))
  /\ (truthy (ITUNES_CATEGORIES_get rt cat) = true ->
      truthy subcat = false ->
      checkItunesCategory rt (VStr cat) subcat = Ok tt)
  /\ (truthy (ITUNES_CATEGORIES_get rt cat) = true ->
      truthy subcat = true -> typeof subcat <> "string" ->
      checkItunesCategory rt (VStr cat) subcat
      = Throw (assertionError "Itunes subcategory must be a string."))
  /\ (forall subs, ITUNES_CATEGORIES_get rt cat = VArr subs ->
        isOk (checkItunesCategory rt (VStr cat) subcat)
        = negb (truthy subcat)
          || ((typeof subcat =? "string")%string
              && existsb (fun x => strictEq x subcat) subs))
  /\ (forall text sub,
        ITUNES_CATEGORIES_get rt cat = VStr text ->
        text <> EmptyString -> sub <> EmptyString ->
        checkItunesCategory rt (VStr cat) (VStr sub)
        = if str_indexOf text sub =? -1
          then Throw (assertionError "Itunes subcategory is not valid.")
          else Ok tt)
  /\ (forall sub,
        truthy (ITUNES_CATEGORIES_get rt cat) = true ->
        isArray (ITUNES_CATEGORIES_get rt cat) = false ->
        typeof (ITUNES_CATEGORIES_get rt cat) <> "string" ->
        sub <> EmptyString ->
        checkItunesCategory rt (VStr cat) (VStr sub)
        = Throw (typeError "_.get(...).indexOf is not a function")).
Proof.
  split; [|split; [|split; [|split; [|split]]]].
  - intros Hf. apply checkItunesCategory_unknown.
    now rewrite truthy_orDefault_null.
  - intros Hf Hs. now rewrite (checkItunesCategory_found _ _ Hf), Hs.
  - intros Hf Hs Hk. rewrite (checkItunesCategory_found _ _ Hf), Hs.
    unfold andThen. now rewrite assert_typeof, (typeof_not_string _ Hk).
  - intros subs Hsubs.
    rewrite checkItunesCategory_found by now rewrite Hsubs.
    destruct (truthy subcat); [|reflexivity]. cbn [negb orb].
    unfold andThen at 1. rewrite assert_typeof.
    destruct (typeof subcat =? "string")%string; [|reflexivity].
    rewrite Hsubs. cbn [call_indexOf andThen andb]. rewrite assert_member.
    now destruct (existsb _ subs).
  - intros text sub Hfound Htext Hsub.
    assert (Hs : truthy (VStr sub) = true).
    { simpl. apply negb_true_iff. now apply String.eqb_neq. }
    rewrite checkItunesCategory_found, Hs.
    + rewrite Hfound. unfold andThen at 1. rewrite assert_typeof.
      cbn [typeof String.eqb Ascii.eqb]. cbn [call_indexOf toString andThen].
      unfold assert_notEqual. rewrite looseEq_num.
      now destruct (str_indexOf text sub =? -1).
    + rewrite Hfound. simpl. apply negb_true_iff. now apply String.eqb_neq.
  - intros sub Hf Harr Hstr Hsub.
    assert (Hs : truthy (VStr sub) = true).
    { simpl. apply negb_true_iff. now apply String.eqb_neq. }
    rewrite (checkItunesCategory_found _ _ Hf), Hs.
    destruct (ITUNES_CATEGORIES_get rt cat);
      try reflexivity; try discriminate. now elim Hstr.
Qed.

End CheckerOutcomes.

(** A response without the byte-range header is reported with the wording
    of a failed connection. *)
Lemma checkUrlExists_outcome_witness :
  snd (checkUrlExists noRangesRuntime
         (VStr "https://cdn.example/cover.png") "itunes:image.@_href"
         ["jpg"; "jpeg"; "png"] ["image/jpg"; "image/jpeg"; "image/png"]
         initialState)
  = Throw (assertionError
             "itunes:image.@_href responded with undefined when trying to connect.").
Proof.
  exact (proj2 (checkUrlExists_outcome noRangesRuntime
                  (VStr "https://cdn.example/cover.png") "itunes:image.@_href"
                  ["jpg"; "jpeg"; "png"]
                  ["image/jpg"; "image/jpeg"; "image/png"] initialState)
           eq_refl eq_refl).
Defined.

(** The table [{ "Arts": ["Books"] }]: a listed and an unlisted
    sub-category of [Arts], and the name [toString], which the table
    inherits, with a sub-category. *)
Lemma checkItunesCategory_accepts_witness :
  isOk (checkItunesCategory (exampleRuntime false None None None)
          (VStr "Arts") (VStr "Books")) = true
  /\ isOk (checkItunesCategory (exampleRuntime false None None None)
             (VStr "Arts") (VStr "Design")) = false
  /\ checkItunesCategory (exampleRuntime false None None None)
       (VStr "toString") (VStr "Books")
     = Throw (typeError "_.get(...).indexOf is not a function").
Proof.
  split; [|split].
  - rewrite (proj1 (proj2 (proj2 (proj2
               (checkItunesCategory_accepts
                  (exampleRuntime false None None None) "Arts"
                  (VStr "Books")))))
               [VStr "Books"] eq_refl).
    reflexivity.
  - rewrite (proj1 (proj2 (proj2 (proj2
               (checkItunesCategory_accepts
                  (exampleRuntime false None None None) "Arts"
                  (VStr "Design")))))
               [VStr "Books"] eq_refl).
    reflexivity.
  - apply (proj2 (proj2 (proj2 (proj2 (proj2
             (checkItunesCategory_accepts
                (exampleRuntime false None None None) "toString" VNull)))))
             "Books" eq_refl eq_refl);
      discriminate.
Defined.

Lemma enumeration_member (l : list string) (v : Value) (msg : string) :
  isOk (assert_notEqual (VNum (arr_indexOf (map VStr l) v)) (VNum (-1))
          (Some msg)) = true
  <-> exists s, v = VStr s /\ In s l.
Proof.
  rewrite assert_member, existsb_mapped.
  destruct (existsb (fun t => strictEq (VStr t) v) l) eqn:H; simpl.
  - split; [intros _|reflexivity].
    apply existsb_exists in H as (s & Hin & Heq).
    apply strictEq_eq in Heq. now exists s.
  - split; [discriminate|]. intros (s & -> & Hin).
    assert (existsb (fun t => strictEq (VStr t) (VStr s)) l = true).
    { apply existsb_exists. exists s. split; [exact Hin|].
      simpl. apply String.eqb_refl. }
    congruence.
Qed.

(** X5.  Each enumeration checker accepts exactly the strings of its list,
    letter case included, and no value of another kind. *)
Theorem enumeration_checkers_accept (v : Value) (f : string) :
  (isOk (checkItunesType v f) = true
   <-> v = VStr "serial" \/ v = VStr "episodic")
  /\ (isOk (checkEpisodeType v f) = true
      <-> v = VStr "full" \/ v = VStr "trailer" \/ v = VStr "bonus")
  /\ (isOk (checkAudioType v f) = true
      <-> v = VStr "audio/x-m4a" \/ v = VStr "audio/mpeg").
Proof.
  unfold checkItunesType, checkEpisodeType, checkAudioType.
  pose proof (enumeration_member ["serial"; "episodic"] v
                (f ++ " must be 'serial' or 'episodic'")) as H1.
  pose proof (enumeration_member ["full"; "trailer"; "bonus"] v
                (f ++ " must be 'full', 'trailer' or 'bonus'.")) as H2.
  pose proof (enumeration_member ["audio/x-m4a"; "audio/mpeg"] v
                (f ++ " valid audio type")) as H3.
  cbn [map] in H1, H2, H3. rewrite H1, H2, H3. clear H1 H2 H3.
  repeat split.
  all: try (intros (s & -> & Hin); simpl in Hin;
            repeat (destruct Hin as [<- | Hin]; auto); contradiction).
  all: intros H; repeat (destruct H as [-> | H]); try subst v;
    eexists; (split; [reflexivity|simpl; auto]).
Qed.

(** ** Properties kept by the section validators *)

Lemma bind_fst {X Y : Type} (m : M X) (k : X -> M Y) (st : State) (x : X) :
  snd (m st) = Ok x -> bind m k st = k x (fst (m st)).
Proof.
  intros H. unfold bind. destruct (m st) as [st1 [x'|e]]; simpl in *.
  - now injection H as ->.
  - discriminate.
Qed.

Section KeptProperties.

Variable rt : Runtime.
Variable J : State -> Prop.

(** What is needed of [J]: recording an always-fatal violation keeps it. *)
Hypothesis fatal_keeps : forall e, preserves J (handleError rt e false).

Lemma checkRequiredField_keeps (node : Value)
    (fieldName : string -> outcome string) (entry : string * Validator) :
  (forall f, preserves J (snd entry (get node (fst entry) VNull) f)) ->
  preserves J (checkRequiredField rt node fieldName entry).
Proof.
  destruct entry as [field validate]. simpl. intros Hv.
  unfold checkRequiredField. apply preserves_try_catch.
  - apply preserves_bind; [apply preserves_lift|intros f; apply Hv].
  - intros e _. apply fatal_keeps.
Qed.

Lemma checkOptionalField_keeps (node : Value) (entry : string * Validator) :
  (forall f, preserves J (snd entry (get node (fst entry) VNull) f)) ->
  preserves J (checkOptionalField rt node entry).
Proof.
  destruct entry as [field validate]. simpl. intros Hv.
  unfold checkOptionalField. apply preserves_if; [apply preserves_ret|].
  apply preserves_try_catch; [apply Hv|]. intros e _. apply fatal_keeps.
Qed.

Lemma checkRSSFormat_keeps (feed : Value) : preserves J (checkRSSFormat rt feed).
Proof.
  unfold checkRSSFormat. apply preserves_forEach. intros [key value] _.
  apply preserves_try_catch; [apply preserves_lift|].
  intros e _. apply fatal_keeps.
Qed.

(** The fields of the channel, given that the reachability checker keeps
    [J] on the values of the URL fields. *)
Lemma channelFieldChecks_keeps {A : Type} (channel : Value) (k : M A) :
  (forall field f exts ctypes,
     In field CHANNEL_URL_FIELDS ->
     preserves J (checkUrlExists rt (get channel field VNull) f exts ctypes)) ->
  preserves J k ->
  preserves J (channelFieldChecks rt channel k).
Proof.
  intros Hurl Hk. unfold channelFieldChecks.
  apply preserves_bind; [|intros _].
  { apply preserves_forEach. intros entry Hin.
    apply checkRequiredField_keeps. intros f.
    unfold REQUIRED_CHANNEL_ATTRS in Hin. simpl in Hin.
    repeat (destruct Hin as [<- | Hin]; [first
      [ apply preserves_lift
      | apply Hurl; unfold CHANNEL_URL_FIELDS; simpl; tauto ]|]).
    contradiction. }
  apply preserves_bind; [|intros _].
  { apply preserves_try_catch; [apply preserves_lift|].
    intros e _. apply fatal_keeps. }
  apply preserves_bind; [|intros _; exact Hk].
  apply preserves_forEach. intros entry Hin.
  apply checkOptionalField_keeps. intros f.
  unfold OPTIONAL_CHANNEL_ATTRS in Hin. simpl in Hin.
  repeat (destruct Hin as [<- | Hin]; [first
    [ apply preserves_lift
    | apply Hurl; unfold CHANNEL_URL_FIELDS; simpl; tauto ]|]).
  contradiction.
Qed.

(** The item validator, given that the strict-only finding keeps [J]
    too. *)
Lemma checkEpisodes_keeps (channel : Value) :
  (forall e, preserves J (handleError rt e true)) ->
  preserves J (checkEpisodes rt channel).
Proof.
  intros Hstrict.
  assert (Hh : forall e b, preserves J (handleError rt e b)).
  { intros e [|]; [apply Hstrict|apply fatal_keeps]. }
  unfold checkEpisodes.
  apply preserves_bind; [|intros _].
  { apply preserves_try_catch.
    - apply preserves_bind; [apply preserves_lift|intros len].
      apply preserves_lift.
    - intros e _. apply fatal_keeps. }
  apply preserves_bind; [apply preserves_lift|intros elems].
  generalize (@nil Value, @nil Value).
  induction elems as [|item elems IH]; intros seen; simpl.
  - apply preserves_ret.
  - apply preserves_bind; [|intros seen'; apply IH].
    destruct seen as [guids episodes]. unfold checkEpisode.
    apply preserves_bind; [|intros g].
    { unfold checkDuplicateGuid.
      apply preserves_if; [|apply preserves_ret].
      apply preserves_bind; [|intros _; apply preserves_ret].
      apply preserves_if; [|apply preserves_ret].
      apply preserves_bind; [apply preserves_lift|intros title; apply Hh]. }
    apply preserves_bind; [|intros e].
    { unfold checkDuplicateEpisode.
      apply preserves_if; [|apply preserves_ret].
      apply preserves_bind; [|intros _; apply preserves_ret].
      apply preserves_if; [|apply preserves_ret].
      apply preserves_bind; [apply preserves_lift|intros title; apply Hh]. }
    apply preserves_bind; [|intros _].
    { apply preserves_forEach. intros entry Hin.
      apply checkRequiredField_keeps. intros f.
      unfold REQUIRED_EPISODE_ATTRS in Hin. apply in_app_or in Hin.
      destruct Hin as [Hin|Hin].
      - simpl in Hin.
        repeat (destruct Hin as [<- | Hin]; [apply preserves_lift|]).
        contradiction.
      - destruct (strictEq _ _); simpl in Hin; [|contradiction].
        destruct Hin as [<- | []]. apply preserves_lift. }
    apply preserves_bind; [|intros _; apply preserves_ret].
    unfold checkAdditionalTags.
    apply preserves_bind; [apply preserves_lift|intros keys].
    apply preserves_if; [|apply preserves_ret].
    apply preserves_bind; [apply preserves_lift|intros title; apply Hh].
Qed.

End KeptProperties.

Lemma checkChannel_split (rt : Runtime) (channel : Value) :
  checkChannel rt channel
  = channelFieldChecks rt channel (channelTagsBlock rt channel).
Proof. reflexivity. Qed.

(** The field checks of the channel complete, and what follows them starts
    from the state they leave. *)
Lemma channelFieldChecks_then {A : Type} (rt : Runtime) (channel : Value)
    (k : M A) (st : State) :
  channelFieldChecks rt channel k st
  = k (fst (channelFieldChecks rt channel (ret tt) st)).
Proof.
  unfold channelFieldChecks.
  pose proof (forEach_completes (REQUIRED_CHANNEL_ATTRS rt)
                (checkRequiredField rt channel (fun field => Ok field))
                (fun x s => checkRequiredField_completes rt channel _ x s) st)
    as H1.
  rewrite !(bind_fst _ _ st tt H1).
  set (st1 := fst (forEach (REQUIRED_CHANNEL_ATTRS rt) _ st)).
  pose proof (caught_completes rt
                (lift (checkItunesCategory rt
                         (get channel "itunes:category.@_text"
                            (VStr EmptyString))
                         (get channel "itunes:category.itunes:category.@_text"
                            VNull))) st1) as H2.
  rewrite !(bind_fst _ _ st1 tt H2).
  set (st2 := fst (try_catch _ _ st1)).
  pose proof (forEach_completes (OPTIONAL_CHANNEL_ATTRS rt)
                (checkOptionalField rt channel)
                (fun x s => checkOptionalField_completes rt channel x s) st2)
    as H3.
  rewrite !(bind_fst _ _ st2 tt H3). reflexivity.
Qed.

Section KeptByItems.

Variable rt : Runtime.
Variable J : State -> Prop.
Hypothesis fatal_keeps : forall e, preserves J (handleError rt e false).




End KeptByItems.

Section Reports.

Variable rt : Runtime.

Lemma checkUrlExists_keeps (J : State -> Prop) (s : Value) (f : string)
    (exts ctypes : list string) :
  (forall msg, preserves J (console_warn msg)) ->
  preserves J (head_request rt (str_of s)) ->
  preserves J (checkUrlExists rt s f exts ctypes).
Proof.
  intros Hwarn Hhead. unfold checkUrlExists.
  apply preserves_bind; [apply preserves_lift|intros _].
  apply preserves_if; [apply Hwarn|].
  apply preserves_try_catch; [|intros; apply preserves_lift].
  apply preserves_bind; [apply Hhead|intros res].
  repeat (apply preserves_bind; [apply preserves_lift|intros _]).
  apply preserves_if; [apply preserves_lift|apply preserves_ret].
Qed.

(** A property of the recorded violations alone is kept by the
    reachability checker. *)
Lemma checkUrlExists_handled (s : Value) (f : string)
    (exts ctypes : list string) (st : State) :
  handled (fst (checkUrlExists rt s f exts ctypes st)) = handled st.
Proof.
  apply (checkUrlExists_keeps (fun s' => handled s' = handled st)).
  - intros msg s' H. exact H.
  - intros s' H. rewrite head_request_eq. exact H.
  - reflexivity.
Qed.

(** X6.  The envelope check records one always-fatal violation for every
    required attribute whose value is not loosely equal to the expected one,
    in the order of the table, checks all four whatever the earlier ones
    gave, and completes. *)
Theorem checkRSSFormat_report (feed : Value) (st : State) :
  snd (checkRSSFormat rt feed st) = Ok tt
  /\ handled (fst (checkRSSFormat rt feed st))
     = (handled st ++ rssViolations feed)%list
  /\ (List.length (rssViolations feed) <= 4)%nat.
Proof.
  split; [apply checkRSSFormat_completes|]. split.
  - unfold checkRSSFormat, rssViolations. revert st.
    induction REQUIRED_RSS_ATTRS as [|[key value] l IH]; intros st.
    + simpl. symmetry. apply app_nil_r.
    + cbn [forEach filter map fst snd].
      rewrite (bind_fst _ _ st tt (caught_completes rt _ st)).
      rewrite IH, caught_eq. unfold lift, assert_equal.
      destruct (looseEq _ (VStr value)); cbn [negb fst map].
      * reflexivity.
      * rewrite handled_recordViolation, <- app_assoc. reflexivity.
  - unfold rssViolations. rewrite length_map.
    apply (Nat.le_trans _ _ _ (filter_length_le _ _)). reflexivity.
Qed.

Lemma strictOnly_recordViolation (e : Error) (b : bool) (st : State) :
  strictOnly (recordViolation rt e b st)
  = (strictOnly st ++ if b then [(e, b)] else [])%list.
Proof.
  unfold strictOnly. rewrite handled_recordViolation, filter_app. simpl.
  now destruct b.
Qed.

Lemma nonempty_length {X : Type} (l : list X) :
  (Z.of_nat (List.length l) >? 0) = match l with [] => false | _ :: _ => true end.
Proof. destruct l; [reflexivity|]. apply Z.gtb_lt. simpl List.length. lia. Qed.

(** X7.  Of all that the channel validator records, the strict-only
    violations are at most one: the finding that lists, in document order,
    the child tags of the channel that are neither structural tags nor names
    of the rule tables; none when every child tag is explained. *)
Theorem checkChannel_strict_only (channel : Value) (st : State) :
  isNullish channel = false ->
  strictOnly (fst (checkChannel rt channel st))
  = (strictOnly st ++ channelTagReport rt channel)%list.
Proof.
  intros Hc. rewrite checkChannel_split, channelFieldChecks_then.
  set (st3 := fst (channelFieldChecks rt channel (ret tt) st)).
  assert (H3 : strictOnly st3 = strictOnly st).
  { apply (channelFieldChecks_keeps rt (fun s => strictOnly s = strictOnly st)).
    - intros e s H. rewrite handleError_eq. cbn [fst].
      rewrite strictOnly_recordViolation, H. apply app_nil_r.
    - intros field f exts ctypes _ s H. unfold strictOnly.
      now rewrite checkUrlExists_handled.
    - apply preserves_ret.
    - reflexivity. }
  unfold channelTagsBlock, channelTagReport, objectKeys, bind, lift.
  rewrite Hc, nonempty_length.
  destruct (without (ownKeys channel) (explainedChannelTags rt)) as [|t ts].
  - simpl. rewrite H3. symmetry. apply app_nil_r.
  - rewrite handleError_eq. cbn [fst].
    now rewrite strictOnly_recordViolation, H3.
Qed.



End Reports.

Lemma checkChannel_strict_only_witness :
  strictOnly
    (fst (checkChannel (exampleRuntime false None None None)
            channelWithUnknownTags initialState))
  = [(newError "Channel has additional tags: podcast:locked,ttl", true)].
Proof.
  rewrite (checkChannel_strict_only (exampleRuntime false None None None)
             channelWithUnknownTags initialState eq_refl).
  reflexivity.
Defined.


(** ** Properties of a whole run *)

Section WholeRun.

Variable rt : Runtime.
Variable J : State -> Prop.
Hypothesis handle_keeps : forall e b, preserves J (handleError rt e b).

Lemma main_keeps (feed : Value) :
  (forall field f exts ctypes,
     In field CHANNEL_URL_FIELDS ->
     preserves J
       (checkUrlExists rt (get (channelOf feed) field VNull) f exts ctypes)) ->
  preserves J (main rt feed).
Proof.
  intros Hurl. unfold main.
  apply preserves_bind; [|intros _].
  { apply checkRSSFormat_keeps. intros e. apply handle_keeps. }
  apply preserves_bind; [|intros _].
  { rewrite checkChannel_split. apply channelFieldChecks_keeps.
    - intros e. apply handle_keeps.
    - exact Hurl.
    - unfold channelTagsBlock.
      apply preserves_bind; [apply preserves_lift|intros keys].
      apply preserves_if; [apply handle_keeps|apply preserves_ret]. }
  apply preserves_bind; [|intros _].
  { apply checkEpisodes_keeps; intros e; apply handle_keeps. }
  intros st H. exact H.
Qed.

End WholeRun.



Lemma checkUrlFormat_accepted_value (s : Value) (f : string)
    (exts : list string) :
  isOk (checkUrlFormat s f exts) = true ->
  exists u, s = VStr u /\ startsWith u "https://" = true.
Proof.
  unfold checkUrlFormat, andThen. rewrite assert_typeof, assert_bool.
  destruct s; try discriminate. cbn [typeof str_of]. intros H. exists s.
  split; [reflexivity|].
  cbn [String.eqb Ascii.eqb] in H.
  destruct (Bool.eqb (strlen s >? 0) true); [|discriminate].
  unfold assert_equal at 1 in H. rewrite looseEq_str in H.
  change 8 with (Z.of_nat (String.length "https://")) in H.
  rewrite slice_is_prefix in H.
  now destruct (startsWith s "https://").
Qed.

Lemma checkUrlExists_requests (rt : Runtime) (s : Value) (f : string)
    (exts ctypes : list string) (st : State) :
  requests (fst (checkUrlExists rt s f exts ctypes st))
  = (requests st
     ++ if isOk (checkUrlFormat s f exts) && negb (skipInPipeline rt s)
        then [str_of s] else [])%list.
Proof.
  unfold checkUrlExists. unfold bind at 1. unfold lift at 1.
  destruct (checkUrlFormat s f exts) as [[]|e]; cbn [isOk andb fst].
  - destruct (skipInPipeline rt s); cbn [negb].
    + cbn. symmetry. apply app_nil_r.
    + pose proof (reachability_check_sends_request rt (str_of s) f ctypes st
                    (fun err =>
                       assert_equal (err_status err) (VNum 200)
                         (f ++ " responded with " ++ toString (err_status err)
                          ++ " when trying to connect."))) as H.
      cbv zeta in H. rewrite H. reflexivity.
  - symmetry. apply app_nil_r.
Qed.

(** X10.  The envelope check and the item validator send no request: the
    audio URL of an item is checked for its shape only.  In a run from the
    initial state, every request goes to the value of one of the four URL
    fields of the channel (cover image, atom link, link, new feed URL), and
    that value is a string starting with [https://]. *)
Theorem requests_go_to_channel_urls (rt : Runtime) (feed : Value) :
  (forall st, requests (fst (checkRSSFormat rt feed st)) = requests st)
  /\ (forall channel st,
        requests (fst (checkEpisodes rt channel st)) = requests st)
  /\ (forall url,
        In url (requests (fst (run rt feed))) ->
        startsWith url "https://" = true
        /\ exists field,
             In field CHANNEL_URL_FIELDS
             /\ get (channelOf feed) field VNull = VStr url).
Proof.
  assert (Hh : forall r e b,
            preserves (fun s => requests s = r) (handleError rt e b)).
  { intros r e b s H. rewrite handleError_eq. cbn [fst].
    now rewrite requests_recordViolation. }
  split; [|split].
  - intros st.
    apply (checkRSSFormat_keeps rt (fun s => requests s = requests st));
      [intros e; apply Hh|reflexivity].
  - intros channel st.
    apply (checkEpisodes_keeps rt (fun s => requests s = requests st));
      [intros e; apply Hh|intros e; apply Hh|reflexivity].
  - set (P := fun url =>
                startsWith url "https://" = true
                /\ exists field,
                     In field CHANNEL_URL_FIELDS
                     /\ get (channelOf feed) field VNull = VStr url).
    assert (Hall : Forall P (requests (fst (run rt feed)))).
    { unfold run. apply (main_keeps rt (fun st => Forall P (requests st))).
      - intros e b st H. rewrite handleError_eq. cbn [fst].
        now rewrite requests_recordViolation.
      - intros field f exts ctypes Hin st H.
        rewrite checkUrlExists_requests. apply Forall_app. split; [exact H|].
        destruct (isOk (checkUrlFormat _ f exts)) eqn:Hok;
          [|constructor].
        destruct (negb _); [|constructor].
        apply checkUrlFormat_accepted_value in Hok as (u & Hu & Hp).
        rewrite Hu. cbn [str_of]. constructor; [|constructor].
        split; [exact Hp|]. now exists field.
      - constructor. }
    intros url Hin. rewrite Forall_forall in Hall. now apply Hall.
Qed.

(** ** Required fields, item lists and the show type *)

Section RequiredFields.

Variable rt : Runtime.

(** X11.  Each of the six required channel fields, when absent, is recorded
    as exactly one always-fatal violation that names the field and the kind
    it must have; nothing else changes, whatever the other fields hold. *)
Theorem required_channel_field_absent (channel : Value)
    (entry : string * Validator) (st : State) :
  In entry (REQUIRED_CHANNEL_ATTRS rt) ->
  get channel (fst entry) VNull = VNull ->
  checkRequiredField rt channel (fun field => Ok field) entry st
  = (recordViolation rt
       (assertionError (fst entry ++ absentChannelWording (fst entry)))
       false st,
     Ok tt).
Proof.
  intros Hin Habs. unfold REQUIRED_CHANNEL_ATTRS in Hin. simpl in Hin.
  repeat (destruct Hin as [<- | Hin];
          [cbn [fst] in Habs; unfold checkRequiredField;
           rewrite caught_eq; unfold bind, lift; rewrite Habs;
           reflexivity|]).
  contradiction.
Qed.


(** X13.  A channel without items (no item tag, an empty list, or an empty
    item tag) gets exactly one always-fatal violation from the item
    validator, the one of the episode count, and the validator
    completes. *)
Theorem checkEpisodes_without_items (channel : Value) (st : State) :
  get channel "item" (VArr []) = VArr []
  \/ get channel "item" (VArr []) = VStr EmptyString ->
  checkEpisodes rt channel st
  = (recordViolation rt
       (assertionError "Episode count must be a positive number.") false st,
     Ok tt).
Proof.
  intros [H|H]; unfold checkEpisodes, itemsOf; rewrite H;
    cbn [truthy isArray andb negb String.eqb];
    first [ rewrite (forOf_iterate rt (VArr []) [] eq_refl)
          | rewrite (forOf_iterate rt (VStr EmptyString) [] eq_refl) ];
    unfold bind at 1; rewrite caught_eq; unfold bind, lift; reflexivity.
Qed.

(** X14.  When the item tag holds the number 0 or the boolean [false], the
    item validator records the violation of the episode count, and what
    follows depends on how the loop over the items was emitted.  As an index
    loop (a target below ES2015, the build of the README) the loop runs no
    round: the validator completes and the run exits with code 1.  As an
    iteration (ES2015 or later) the loop throws, the value not being
    iterable: the run ends with that error, not with an exit code, although
    the exit code variable has been set to 1. *)
Theorem checkEpisodes_on_falsy_item (feed : Value) :
  isNullish (channelOf feed) = false ->
  get (channelOf feed) "item" (VArr []) = VNum 0
  \/ get (channelOf feed) "item" (VArr []) = VBool false ->
  (forall st,
     checkEpisodes rt (channelOf feed) st
     = (recordViolation rt
          (assertionError "Episode count must be a number.") false st,
        if emit_ES2015 rt then Throw (typeError "items is not iterable")
        else Ok tt))
  /\ snd (run rt feed)
     = (if emit_ES2015 rt then Throw (typeError "items is not iterable")
        else Ok 1)
  /\ exitCode (fst (run rt feed)) = 1.
Proof.
  intros Hc Hitem.
  assert (Hep : forall st,
            checkEpisodes rt (channelOf feed) st
            = (recordViolation rt
                 (assertionError "Episode count must be a number.") false st,
               if emit_ES2015 rt then Throw (typeError "items is not iterable")
               else Ok tt)).
  { intros st.
    destruct Hitem as [H|H]; unfold checkEpisodes, itemsOf, forOf; rewrite H;
      cbn [truthy isArray andb negb Z.eqb];
      unfold bind at 1; rewrite caught_eq; unfold bind, lift;
      destruct (emit_ES2015 rt); reflexivity. }
  split; [exact Hep|].
  unfold run, main.
  rewrite (bind_fst _ _ _ tt (checkRSSFormat_completes rt feed initialState)).
  rewrite (bind_fst _ _ _ tt
             (checkChannel_completes rt (channelOf feed) _ Hc)).
  unfold bind. rewrite Hep. unfold process_exit.
  destruct (emit_ES2015 rt); cbn [fst snd]; split; reflexivity.
Qed.

End RequiredFields.

(** A channel whose item tag holds the number 0, in the two builds. *)
Lemma checkEpisodes_on_falsy_item_witness :
  snd (run (exampleRuntime false None None None)
         (exampleFeed (VObj [("title", VStr "Daily Talks"); ("item", VNum 0)])))
  = Ok 1
  /\ snd (run (emittedForES2015 (exampleRuntime false None None None))
            (exampleFeed
               (VObj [("title", VStr "Daily Talks"); ("item", VNum 0)])))
     = Throw (typeError "items is not iterable").
Proof.
  split.
  - apply (checkEpisodes_on_falsy_item
             (exampleRuntime false None None None)
             (exampleFeed
                (VObj [("title", VStr "Daily Talks"); ("item", VNum 0)]))
             eq_refl (or_introl eq_refl)).
  - apply (checkEpisodes_on_falsy_item
             (emittedForES2015 (exampleRuntime false None None None))
             (exampleFeed
                (VObj [("title", VStr "Daily Talks"); ("item", VNum 0)]))
             eq_refl (or_introl eq_refl)).
Defined.

Lemma required_channel_field_absent_witness :
  checkRequiredField (exampleRuntime false None None None) (VObj [])
    (fun field => Ok field)
    ("itunes:explicit", pureValidator checkBool) initialState
  = (mkState [(StdError, "itunes:explicit must be a boolean.")] 1
       [(assertionError "itunes:explicit must be a boolean.", false)] [],
     Ok tt).
Proof.
  rewrite (required_channel_field_absent
             (exampleRuntime false None None None) (VObj [])
             ("itunes:explicit", pureValidator checkBool) initialState
             ltac:(simpl; tauto) eq_refl).
  reflexivity.
Defined.


Lemma checkEpisodes_without_items_witness :
  checkEpisodes (exampleRuntime false None None None)
    (VObj [("title", VStr "Daily Talks")]) initialState
  = (mkState [(StdError, "Episode count must be a positive number.")] 1
       [(assertionError "Episode count must be a positive number.", false)] [],
     Ok tt).
Proof.
  rewrite (checkEpisodes_without_items (exampleRuntime false None None None)
             (VObj [("title", VStr "Daily Talks")]) initialState
             (or_introl eq_refl)).
  reflexivity.
Defined.

(** X15.  The episode index is a required item field exactly when the show
    type is the string [serial], and an optional one otherwise; the names
    that the item validator takes as explained are the same for every show
    type. *)
Theorem episode_index_required_for_serial (rt : Runtime) (itunesType : Value) :
  (In "itunes:episode" (map fst (REQUIRED_EPISODE_ATTRS itunesType))
   <-> itunesType = VStr "serial")
  /\ (In "itunes:episode" (map fst (OPTIONAL_EPISODE_ATTRS rt itunesType))
      <-> itunesType <> VStr "serial")
  /\ (forall otherType key,
        In key (explainedItemTags rt itunesType)
        <-> In key (explainedItemTags rt otherType)).
Proof.
  assert (Hs : forall t, strictEq t (VStr "serial") = true <-> t = VStr "serial").
  { intros t. split; [apply strictEq_eq|intros ->; reflexivity]. }
  split; [|split].
  - unfold REQUIRED_EPISODE_ATTRS. rewrite <- Hs.
    destruct (strictEq itunesType (VStr "serial")); simpl;
      intuition discriminate.
  - unfold OPTIONAL_EPISODE_ATTRS. rewrite <- Hs.
    destruct (strictEq itunesType (VStr "serial")); simpl;
      intuition discriminate.
  - intros otherType key.
    unfold explainedItemTags, REQUIRED_EPISODE_ATTRS, OPTIONAL_EPISODE_ATTRS.
    destruct (strictEq itunesType (VStr "serial")),
      (strictEq otherType (VStr "serial")); simpl; tauto.
Qed.

(** ** Optional fields of the channel *)

(** X16.  In the loop over the optional channel table, an absent field is
    skipped without any effect, so a channel that has none of the optional
    fields leaves the loop as it entered it; a present field goes to its
    validator, and is recorded as exactly one always-fatal violation when
    the validator throws, and not at all when it returns. *)
Theorem channel_optional_fields (rt : Runtime) (channel : Value) (st : State) :
  ((forall field,
      In field (map fst (OPTIONAL_CHANNEL_ATTRS rt)) ->
      get channel field VUndefined = VUndefined) ->
   forEach (OPTIONAL_CHANNEL_ATTRS rt) (checkOptionalField rt channel) st
   = (st, Ok tt))
  /\ (forall field (validate : Validator) st1 o,
        strictEq (get channel field VUndefined) VUndefined = false ->
        validate (get channel field VNull) field st = (st1, o) ->
        checkOptionalField rt channel (field, validate) st
        = match o with
          | Ok _ => (st1, Ok tt)
          | Throw e => (recordViolation rt e false st1, Ok tt)
          end).
Proof.
  split.
  - intros Habs. revert Habs.
    induction (OPTIONAL_CHANNEL_ATTRS rt) as [|[field validate] l IH];
      intros Habs; [reflexivity|].
    cbn [forEach]. unfold bind.
    rewrite (checkOptionalField_absent rt channel field validate st).
    + apply IH. intros f Hf. apply Habs. now right.
    + apply Habs. now left.
  - intros field validate st1 o Hp Hv. unfold checkOptionalField.
    now rewrite Hp, caught_eq, Hv.
Qed.

Lemma channel_optional_fields_witness :
  checkOptionalField (exampleRuntime false None None None)
    (VObj [("itunes:type", VStr "weekly")])
    ("itunes:type", pureValidator checkItunesType) initialState
  = (mkState [(StdError, "itunes:type must be 'serial' or 'episodic'")] 1
       [(assertionError "itunes:type must be 'serial' or 'episodic'", false)]
       [],
     Ok tt).
Proof.
  rewrite (proj2 (channel_optional_fields (exampleRuntime false None None None)
                    (VObj [("itunes:type", VStr "weekly")]) initialState)
             "itunes:type" (pureValidator checkItunesType) initialState
             (Throw (assertionError
                       "itunes:type must be 'serial' or 'episodic'"))
             eq_refl eq_refl).
  reflexivity.
Defined.

(** * Properties of the feed generator *)

Lemma mapOutcome_isOk (podcast : Value) (episodes : list Value) :
  isOk (mapOutcome (feedItem podcast) episodes)
  = forallb (fun episode => negb (isNullish episode)) episodes.
Proof.
  induction episodes as [|e l IH]; [reflexivity|].
  cbn [mapOutcome forallb]. unfold feedItem at 1, readMember.
  destruct (isNullish e); [reflexivity|]. cbn [andThen negb andb].
  rewrite <- IH. now destruct (mapOutcome (feedItem podcast) l).
Qed.

(** X17.  The generator builds a feed exactly when the podcast record is
    neither [null] nor [undefined], its [episodes] is an array, and no
    episode is [null]; otherwise it throws a type error before anything is
    written. *)
Theorem createFeed_completes (podcast : Value) (now : string) :
  isOk (createFeed podcast now)
  = negb (isNullish podcast)
    && match member podcast "episodes" with
       | VArr episodes =>
           forallb (fun episode => negb (isNullish episode)) episodes
       | _ => false
       end.
Proof.
  unfold createFeed, readMember.
  destruct (isNullish podcast); [reflexivity|]. cbn [andThen negb andb].
  destruct (member podcast "episodes") as [| | | | | | |episodes];
    try reflexivity.
  cbn [call_map]. rewrite <- (mapOutcome_isOk podcast episodes).
  now destruct (mapOutcome (feedItem podcast) episodes).
Qed.

(** What a feed that was built is made of. *)
Lemma createFeed_built (podcast : Value) (now : string) (feed : Value) :
  createFeed podcast now = Ok feed ->
  exists episodes items,
    member podcast "episodes" = VArr episodes
    /\ mapOutcome (feedItem podcast) episodes = Ok items
    /\ channelOf feed = feedChannel podcast now items.
Proof.
  unfold createFeed, readMember.
  destruct (isNullish podcast); [discriminate|]. cbn [andThen].
  destruct (member podcast "episodes") as [| | | | | | |episodes];
    try discriminate.
  cbn [call_map].
  destruct (mapOutcome (feedItem podcast) episodes) as [items|e] eqn:Hm;
    [|discriminate].
  cbn [andThen]. intros [= <-]. exists episodes, items.
  repeat split; [exact Hm].
Qed.

Lemma feedChannel_items (podcast : Value) (now : string) (items : list Value) :
  itemList (feedChannel podcast now items) = items.
Proof.
  unfold itemList, itemsOf, feedChannel, spreadIf.
  destruct (truthy (member podcast "atomLink")),
    (truthy (member podcast "type")); reflexivity.
Qed.

Lemma mapOutcome_Forall2 (podcast : Value) (episodes items : list Value) :
  mapOutcome (feedItem podcast) episodes = Ok items ->
  Forall2 (fun episode item => feedItem podcast episode = Ok item)
    episodes items.
Proof.
  revert items. induction episodes as [|e l IH]; intros items; cbn [mapOutcome].
  - intros [= <-]. constructor.
  - destruct (feedItem podcast e) as [item|err] eqn:He; [|discriminate].
    cbn [andThen].
    destruct (mapOutcome (feedItem podcast) l) as [rest|err]; [|discriminate].
    cbn [andThen]. intros [= <-]. constructor; [exact He|now apply IH].
Qed.

(** The cases of the conditional tags of an item. *)
Ltac item_conditions :=
  unfold spreadIf;
  repeat match goal with
         | |- context [if truthy ?c then _ else _] => destruct (truthy c)
         end.

Lemma feedItem_identity (podcast episode item : Value) :
  feedItem podcast episode = Ok item ->
  get item "title" VUndefined = member episode "title"
  /\ guidOf item = orDefault (member episode "guid") (VStr EmptyString).
Proof.
  unfold feedItem, readMember.
  destruct (isNullish episode); [discriminate|]. cbn [andThen].
  intros [= <-]. split.
  - unfold get, castPath. cbn. now destruct (member episode "title").
  - unfold guidOf, get, castPath, hasProperty. item_conditions; cbn;
      now destruct (member episode "guid").
Qed.

(** X18.  A feed that was built holds one item per episode, in the order of
    the episodes; each item carries the title of its episode, and the guid
    that the validator reads from it is the guid of the episode (the empty
    text when the episode has none). *)
Theorem createFeed_items (podcast : Value) (now : string) (feed : Value)
    (episodes : list Value) :
  createFeed podcast now = Ok feed ->
  member podcast "episodes" = VArr episodes ->
  List.length (itemList (channelOf feed)) = List.length episodes
  /\ map (fun item => get item "title" VUndefined) (itemList (channelOf feed))
     = map (fun episode => member episode "title") episodes
  /\ map guidOf (itemList (channelOf feed))
     = map (fun episode =>
              orDefault (member episode "guid") (VStr EmptyString))
         episodes.
Proof.
  intros Hf He.
  destruct (createFeed_built _ _ _ Hf) as (eps & items & He' & Hm & Hc).
  rewrite He in He'. injection He' as <-.
  rewrite Hc, feedChannel_items.
  apply mapOutcome_Forall2 in Hm. clear Hf He Hc.
  induction Hm as [|e item eps items Hi _ IH]; [repeat split|].
  destruct (feedItem_identity podcast e item Hi) as [Ht Hg].
  destruct IH as (IH1 & IH2 & IH3). cbn [List.length map].
  now rewrite IH1, IH2, IH3, Ht, Hg.
Qed.

Lemma Forall2_In_right {X Y : Type} (R : X -> Y -> Prop) (l : list X)
    (l' : list Y) (y : Y) :
  Forall2 R l l' -> In y l' -> exists x, In x l /\ R x y.
Proof.
  intros H. induction H as [|x y' l l' Hxy _ IH]; intros Hin; [contradiction|].
  destruct Hin as [<- | Hin].
  - exists x. split; [now left|exact Hxy].
  - destruct (IH Hin) as (x' & Hx' & HR). exists x'. split; [now right|exact HR].
Qed.

(** X19.  Every tag name that the generator gives to the channel, and to an
    item, is a name that the validator takes as explained: on a feed that
    was built, neither the channel nor any item yields an unexpected-tag
    finding, whatever the show type and whichever conditional tags are
    emitted. *)
Theorem createFeed_tags_explained (rt : Runtime) (podcast : Value)
    (now : string) (feed : Value) :
  createFeed podcast now = Ok feed ->
  channelTagReport rt (channelOf feed) = []
  /\ forall itunesType item,
       In item (itemList (channelOf feed)) ->
       itemTagReport rt itunesType item = [].
Proof.
  intros Hf.
  destruct (createFeed_built _ _ _ Hf) as (eps & items & _ & Hm & Hc).
  rewrite Hc, feedChannel_items. split.
  - unfold channelTagReport, feedChannel, spreadIf.
    destruct (truthy (member podcast "atomLink")),
      (truthy (member podcast "type")); reflexivity.
  - intros itunesType item Hin.
    apply mapOutcome_Forall2 in Hm.
    destruct (Forall2_In_right _ _ _ _ Hm Hin) as (e & _ & He).
    unfold feedItem, readMember in He.
    destruct (isNullish e); [discriminate|]. cbn [andThen] in He.
    injection He as <-.
    unfold itemTagReport, explainedItemTags, REQUIRED_EPISODE_ATTRS,
      OPTIONAL_EPISODE_ATTRS.
    destruct (strictEq itunesType (VStr "serial")); item_conditions;
      reflexivity.
Qed.

(** X20.  The envelope of a feed that was built carries the four attributes
    that the validator requires, with the values it expects: the envelope
    check records nothing for it. *)
Theorem createFeed_envelope (rt : Runtime) (podcast : Value) (now : string)
    (feed : Value) (st : State) :
  createFeed podcast now = Ok feed ->
  rssViolations feed = []
  /\ checkRSSFormat rt feed st = (st, Ok tt).
Proof.
  unfold createFeed, readMember.
  destruct (isNullish podcast); [discriminate|]. cbn [andThen].
  destruct (call_map _ _) as [items|e]; [|discriminate].
  cbn [andThen]. intros [= <-]. split; reflexivity.
Qed.

Lemma get_undefined (object : Value) (path : string) :
  get object path VUndefined
  = if isNullish object then VUndefined
    else baseGet object (castPath path object).
Proof.
  unfold get.
  now destruct (if isNullish object then VUndefined
                else baseGet object (castPath path object)).
Qed.

Lemma truthy_serial_condition (showType episode : Value) :
  truthy
    (andAlso
       (andAlso showType (VBool (strictEq showType (VStr "serial"))))
       episode)
  = strictEq showType (VStr "serial") && truthy episode.
Proof.
  unfold andAlso. destruct (truthy showType) eqn:Ht.
  - cbn [truthy]. now destruct (strictEq showType (VStr "serial")).
  - rewrite !Ht. destruct (strictEq showType (VStr "serial")) eqn:Hs;
      [|reflexivity].
    apply strictEq_eq in Hs. subst showType. discriminate.
Qed.

(** X21.  A conditional tag of an item is emitted exactly when its source
    field is truthy, and then carries the value of the field: an episode
    numbered 0, a season 0 or an empty subtitle is left out.  The broadcast
    order is emitted exactly when the show type is [serial] and the episode
    number is truthy, and equals the episode number. *)
Theorem feedItem_conditional_tags (podcast episode item : Value) :
  feedItem podcast episode = Ok item ->
  let given := fun source =>
    if truthy (member episode source) then member episode source
    else VUndefined in
  get item "content:encoded" VUndefined = given "contentEncoded"
  /\ get item "itunes:subtitle" VUndefined = given "subtitle"
  /\ get item "category" VUndefined = given "categories"
  /\ get item "link" VUndefined = given "link"
  /\ get item "itunes:episode" VUndefined = given "episode"
  /\ get item "itunes:season" VUndefined = given "season"
  /\ get item "itunes:order" VUndefined
     = if strictEq (member podcast "type") (VStr "serial")
          && truthy (member episode "episode")
       then member episode "episode" else VUndefined.
Proof.
  unfold feedItem, readMember.
  destruct (isNullish episode); [discriminate|]. cbn [andThen].
  intros [= <-]. cbv zeta. rewrite !get_undefined.
  unfold spreadIf. rewrite truthy_serial_condition.
  destruct (strictEq (member podcast "type") (VStr "serial"));
    destruct (truthy (member episode "contentEncoded")),
      (truthy (member episode "subtitle")),
      (truthy (member episode "categories")),
      (truthy (member episode "link")),
      (truthy (member episode "episode")),
      (truthy (member episode "season"));
    repeat split.
Qed.

Lemma feedItem_conditional_tags_witness :
  get (VObj [("guid", VObj [("@_isPermaLink", VBool false);
                            ("#text", VStr "ep-0")]);
             ("pubDate", VUndefined); ("title", VStr "Pilot");
             ("itunes:title", VStr "Pilot"); ("itunes:author", VUndefined);
             ("description", VUndefined);
             ("enclosure", VObj [("@_url", VUndefined);
                                 ("@_length", VUndefined);
                                 ("@_type", VUndefined)]);
             ("itunes:duration", VNum 0); ("itunes:explicit", VBool false);
             ("itunes:episodeType", VStr "full")])
    "itunes:episode" VUndefined
  = VUndefined.
Proof.
  exact (proj1 (proj2 (proj2 (proj2 (proj2
           (feedItem_conditional_tags
              (VObj [("type", VStr "serial")])
              (VObj [("guid", VStr "ep-0"); ("title", VStr "Pilot");
                     ("episode", VNum 0)])
              _ eq_refl)))))).
Defined.

(** X22.  The language of a feed that was built is the language of the
    podcast record when that is truthy, and [en-us] otherwise, so it is
    never absent; the default is accepted by the language checker of the
    validator exactly when [en] is a listed code. *)
Theorem createFeed_language (rt : Runtime) (podcast : Value) (now : string)
    (feed : Value) :
  createFeed podcast now = Ok feed ->
  get (channelOf feed) "language" VNull
  = orElse (member podcast "language") (VStr "en-us")
  /\ truthy (get (channelOf feed) "language" VNull) = true
  /\ (truthy (member podcast "language") = false ->
      forall f,
        isOk (checkLanguage rt (get (channelOf feed) "language" VNull) f)
        = existsb (fun code => strictEq code (VStr "en")) (ISO_CODES rt)).
Proof.
  intros Hf.
  destruct (createFeed_built _ _ _ Hf) as (eps & items & _ & _ & Hc).
  rewrite Hc.
  assert (Hl : get (feedChannel podcast now items) "language" VNull
               = orElse (member podcast "language") (VStr "en-us")).
  { unfold get, castPath, feedChannel, orElse. cbn.
    destruct (truthy (member podcast "language")) eqn:Ht; [|reflexivity].
    destruct (member podcast "language"); try reflexivity. discriminate. }
  rewrite Hl. split; [reflexivity|]. split.
  - unfold orElse. now destruct (truthy (member podcast "language")) eqn:Ht.
  - intros Hn f. unfold orElse. rewrite Hn.
    unfold checkLanguage, andThen. rewrite assert_member.
    cbn. now destruct (existsb _ (ISO_CODES rt)).
Qed.

(** ** The generator on a podcast record *)

Lemma createFeed_items_witness :
  map guidOf (itemList (channelOf exampleBuiltFeed))
  = [VStr "ep-1"; VStr "ep-2"].
Proof.
  rewrite (proj2 (proj2
             (createFeed_items examplePodcast
                "Tue, 03 Nov 2026 08:00:00 +0000" exampleBuiltFeed
                (itemList (VObj [("item", member examplePodcast "episodes")]))
                eq_refl eq_refl))).
  reflexivity.
Defined.

Lemma createFeed_tags_explained_witness :
  channelTagReport (exampleRuntime true None None None)
    (channelOf exampleBuiltFeed) = [].
Proof.
  exact (proj1 (createFeed_tags_explained (exampleRuntime true None None None)
                  examplePodcast "Tue, 03 Nov 2026 08:00:00 +0000"
                  exampleBuiltFeed eq_refl)).
Defined.

Lemma createFeed_envelope_witness :
  checkRSSFormat (exampleRuntime true None None None) exampleBuiltFeed
    initialState
  = (initialState, Ok tt).
Proof.
  exact (proj2 (createFeed_envelope (exampleRuntime true None None None)
                  examplePodcast "Tue, 03 Nov 2026 08:00:00 +0000"
                  exampleBuiltFeed initialState eq_refl)).
Defined.

Lemma createFeed_language_witness :
  get (channelOf exampleBuiltFeed) "language" VNull = VStr "en-us".
Proof.
  rewrite (proj1 (createFeed_language (exampleRuntime true None None None)
                    examplePodcast "Tue, 03 Nov 2026 08:00:00 +0000"
                    exampleBuiltFeed eq_refl)).
  reflexivity.
Defined.
